(** * ApiHelper: a shallow embedding of [src/ApiHelper.py] and
    [src/auth/BearerAuth.py]

    The helper is a thin layer over the [requests] / [urllib3] /
    [requests_toolbelt] stack.  The code of the repository (the retry
    constants, the [http_exceptions] decorator, [TimeoutHTTPAdapter],
    [ApiHelper] and [BearerAuth]) is embedded function by function.

    The parts of the libraries that the helper drives are embedded next to
    it, under the names of the library functions they transcribe
    ([Retry.increment], [urlopen], [HTTPAdapter.send], [Session.request],
    [urljoin], ...), as of urllib3 1.26, requests 2.32, requests_toolbelt
    0.9 and Python 3.11.  What these libraries leave to the outside world
    (the wire, body encoding, URL normalisation, the outcome of following
    redirects) is a field of the class [Environment].

    Left out of the library model, because nothing here depends on it:
    cookies, proxies, TLS settings, streaming bodies and file uploads,
    [Response.elapsed], and the per-call arguments other than [params],
    [data], [json], [headers] and [timeout].  The check urllib3 makes of
    a timeout value is left out as well ([valid_timeout] says which
    values pass it).  Strings are byte strings, floats are rationals (0.3
    is 3/10). *)

From Stdlib Require Import Ascii QArith Qminmax.
From stdpp Require Import gmap strings list pretty sorting.

Set Default Proof Using "Type".

(** ** Python strings *)

Definition ascii_lower (c : ascii) : ascii :=
  let n := nat_of_ascii c in
  if (65 <=? n)%nat && (n <=? 90)%nat then ascii_of_nat (n + 32) else c.

Definition ascii_upper (c : ascii) : ascii :=
  let n := nat_of_ascii c in
  if (97 <=? n)%nat && (n <=? 122)%nat then ascii_of_nat (n - 32) else c.

(** [str.lower] / [str.upper] on byte strings (ASCII letters only). *)
Fixpoint lower (s : string) : string :=
  match s with
  | EmptyString => EmptyString
  | String c r => String (ascii_lower c) (lower r)
  end.

Fixpoint upper (s : string) : string :=
  match s with
  | EmptyString => EmptyString
  | String c r => String (ascii_upper c) (upper r)
  end.

(** [s.startswith(p)] *)
Definition startswith (s p : string) : bool := String.prefix p s.

(** Truth value of a [str]: the empty string is falsy. *)
Definition str_truthy (s : string) : bool :=
  match s with EmptyString => false | _ => true end.

(** ** [requests.structures.CaseInsensitiveDict]

    The store maps the lowered key to the pair (last key set, value). *)
Module CaseInsensitiveDict.
Abbreviation t := (gmap string (string * string)).

Definition __setitem__ (key value : string) (d : t) : t :=
  <[lower key := (key, value)]> d.

Definition __getitem__ (key : string) (d : t) : option string :=
  snd <$> d !! lower key.

Definition __delitem__ (key : string) (d : t) : t :=
  delete (lower key) d.

Definition __contains__ (key : string) (d : t) : bool :=
  bool_decide (is_Some (d !! lower key)).

(** [get(key)] with the default [None]. *)
Definition get (key : string) (d : t) : option string := __getitem__ key d.
End CaseInsensitiveDict.

(** ** Exceptions

    The classes the program can meet, with their direct bases as declared in
    [requests.exceptions], [urllib3.exceptions] and the builtins. *)
Inductive exc_class : Type :=
  (* builtins *)
  | BaseException | KeyboardInterrupt | Exception | OSError | ValueError
  | TypeError | RecursionError | Warning
  (* requests.exceptions *)
  | RequestException | HTTPError | ConnectionError | ProxyError | SSLError
  | Timeout | ConnectTimeout | ReadTimeout | TooManyRedirects
  | MissingSchema | InvalidSchema | InvalidURL | InvalidHeader
  | ChunkedEncodingError | ContentDecodingError | RetryError
  | RequestsWarning
  (* urllib3.exceptions *)
  | Urllib3HTTPError | PoolError | RequestError | MaxRetryError
  | Urllib3TimeoutError | Urllib3ConnectTimeoutError
  | Urllib3NewConnectionError.

#[global] Instance exc_class_eq_dec : EqDecision exc_class.
Proof. solve_decision. Defined.

Definition bases (c : exc_class) : list exc_class :=
  match c with
  | BaseException => []
  | KeyboardInterrupt => [BaseException]
  | Exception => [BaseException]
  | OSError | ValueError | TypeError | RecursionError | Warning => [Exception]
  | RequestException => [OSError]
  | HTTPError | ConnectionError | Timeout | TooManyRedirects
  | ChunkedEncodingError | RetryError => [RequestException]
  | ProxyError | SSLError => [ConnectionError]
  | ConnectTimeout => [ConnectionError; Timeout]
  | ReadTimeout => [Timeout]
  | MissingSchema | InvalidSchema | InvalidURL | InvalidHeader =>
      [RequestException; ValueError]
  | ContentDecodingError => [RequestException; Urllib3HTTPError]
  | RequestsWarning => [Warning]
  | Urllib3HTTPError => [Exception]
  | PoolError => [Urllib3HTTPError]
  | RequestError => [PoolError]
  | MaxRetryError => [RequestError]
  | Urllib3TimeoutError => [Urllib3HTTPError]
  | Urllib3ConnectTimeoutError => [Urllib3TimeoutError]
  | Urllib3NewConnectionError => [Urllib3ConnectTimeoutError; PoolError]
  end.

(** [issubclass c d], searching the bases to a depth that covers the
    hierarchy above (its longest chain has six classes). *)
Fixpoint issubclass_upto (depth : nat) (c d : exc_class) : bool :=
  bool_decide (c = d) ||
  match depth with
  | O => false
  | S depth' => existsb (fun b => issubclass_upto depth' b d) (bases c)
  end.

Definition issubclass : exc_class -> exc_class -> bool := issubclass_upto 6.

(** An exception instance: its class and what [str(err)] gives. *)
Record exn : Type := mk_exn { exn_class : exc_class; exn_str : string }.

Definition isinstance (e : exn) (c : exc_class) : bool :=
  issubclass (exn_class e) c.

(** ** Wire-level data (urllib3) *)

(** [urllib3.response.HTTPResponse], as far as the retry logic and
    [requests] read it. *)
Record HTTPResponse : Type := mk_HTTPResponse {
  status : Z;
  raw_headers : CaseInsensitiveDict.t;
  reason : string;
  data : string
}.

Definition REDIRECT_STATUSES : list Z := [301; 302; 303; 307; 308]%Z.

(** [HTTPResponse.get_redirect_location]: the [Location] header of a
    redirect status ([None] and [False] both read as "no location"). *)
Definition get_redirect_location (r : HTTPResponse) : option string :=
  if bool_decide (status r ∈ REDIRECT_STATUSES)
  then CaseInsensitiveDict.get "location" (raw_headers r)
  else None.

(** The errors [urlopen] handles after its own conversions
    ([SocketError] to [ProtocolError], TLS errors to [SSLError], ...).
    [NewConnectionError] is a subclass of [ConnectTimeoutError]. *)
Inductive wire_error_kind : Type :=
  | ConnectTimeoutError
  | NewConnectionError
  | ReadTimeoutError
  | ProtocolError
  | WireSSLError
  | WireProxyError (original_error : wire_error_kind).

Record wire_error : Type := mk_wire_error {
  err_kind : wire_error_kind;
  err_str : string
}.

(** ** [urllib3.util.retry.Retry] *)

(** A retry counter: [None] (no limit of its own), [False] (never retry
    this kind) or an integer. *)
Inductive counter : Type :=
  | CNone
  | CFalse
  | CInt (n : Z).

(** [c -= 1] when [c is not None]; [False - 1] is [-1]. *)
Definition counter_decr (c : counter) : counter :=
  match c with
  | CNone => CNone
  | CFalse => CInt (-1)
  | CInt n => CInt (n - 1)
  end.

Record RequestHistory : Type := mk_RequestHistory {
  rh_method : string;
  rh_url : string;
  rh_error : option wire_error;
  rh_status : option Z;
  rh_redirect_location : option string
}.

(** What a [MaxRetryError] was caused by: the last error, or a
    [ResponseError] with its cause text. *)
Inductive max_retry_reason : Type :=
  | ReasonError (e : wire_error)
  | ResponseError (cause : string).

Module Retry.
Record t : Type := mk {
  total : Z;
  connect : counter;
  read : counter;
  redirect : counter;
  status_count : counter;       (* the [status] argument *)
  other : counter;
  allowed_methods : list string;
  status_forcelist : list Z;
  backoff_factor : Q;
  raise_on_redirect : bool;
  raise_on_status : bool;
  history : list RequestHistory;
  respect_retry_after_header : bool
}.

Definition DEFAULT_ALLOWED_METHODS : list string :=
  ["HEAD"; "GET"; "PUT"; "DELETE"; "OPTIONS"; "TRACE"].
Definition RETRY_AFTER_STATUS_CODES : list Z := [413; 429; 503]%Z.
Definition DEFAULT_BACKOFF_MAX : Q := 120.

(** [Retry(total, read=read)] with every other argument at its default;
    this is what [HTTPAdapter] builds when no retry strategy is given. *)
Definition from_total (total : Z) (read : counter) : t :=
  {| total := total; connect := CNone; read := read; redirect := CNone;
     status_count := CNone; other := CNone;
     allowed_methods := DEFAULT_ALLOWED_METHODS; status_forcelist := [];
     backoff_factor := 0; raise_on_redirect := true;
     raise_on_status := true; history := [];
     respect_retry_after_header := true |}.

(** [self.new(total=.., connect=.., ..., history=..)] *)
Definition new (self : t) (total : Z)
    (connect read redirect status_count other : counter)
    (history : list RequestHistory) : t :=
  {| total := total; connect := connect; read := read;
     redirect := redirect; status_count := status_count; other := other;
     allowed_methods := allowed_methods self;
     status_forcelist := status_forcelist self;
     backoff_factor := backoff_factor self;
     raise_on_redirect := raise_on_redirect self;
     raise_on_status := raise_on_status self;
     history := history;
     respect_retry_after_header := respect_retry_after_header self |}.

(** [itertools.takewhile] *)
Fixpoint takewhile {A} (p : A -> bool) (l : list A) : list A :=
  match l with
  | [] => []
  | x :: l' => if p x then x :: takewhile p l' else []
  end.

Definition get_backoff_time (self : t) : Q :=
  let consecutive_errors_len :=
    length (takewhile
              (fun x => bool_decide (rh_redirect_location x = None))
              (rev (history self))) in
  if (consecutive_errors_len <=? 1)%nat then 0
  else
    let backoff_value :=
      (backoff_factor self
       * inject_Z (2 ^ Z.of_nat (consecutive_errors_len - 1)))%Q in
    Qmin DEFAULT_BACKOFF_MAX backoff_value.

Definition _is_connection_error (err : wire_error) : bool :=
  let k := match err_kind err with
           | WireProxyError original_error => original_error
           | k => k
           end in
  match k with
  | ConnectTimeoutError | NewConnectionError => true
  | _ => false
  end.

Definition _is_read_error (err : wire_error) : bool :=
  match err_kind err with
  | ReadTimeoutError | ProtocolError => true
  | _ => false
  end.

Definition _is_method_retryable (self : t) (method : string) : bool :=
  match allowed_methods self with
  | [] => true
  | allowed => bool_decide (upper method ∈ allowed)
  end.

Definition is_retry (self : t) (method : string) (status_code : Z)
    (has_retry_after : bool) : bool :=
  if negb (_is_method_retryable self method) then false
  else if bool_decide (status_code ∈ status_forcelist self) then true
  else
    negb (total self =? 0)%Z
    && respect_retry_after_header self
    && has_retry_after
    && bool_decide (status_code ∈ RETRY_AFTER_STATUS_CODES).

(** [filter(None, retry_counts)] keeps the non-zero integers. *)
Definition is_exhausted (self : t) : bool :=
  let retry_counts :=
    omap (fun c => match c with
                   | CInt n => if (n =? 0)%Z then None else Some n
                   | _ => None
                   end)
         [CInt (total self); connect self; read self; redirect self;
          status_count self; other self] in
  match retry_counts with
  | [] => false
  | n :: ns => (foldr Z.min n ns <? 0)%Z
  end.

Inductive increment_result : Type :=
  | Incremented (new_retry : t)
  | Reraised (error : wire_error)
  | MaxRetry (url : string) (reason : max_retry_reason).

Definition GENERIC_ERROR : string := "too many error responses".
Definition SPECIFIC_ERROR (status_code : Z) : string :=
  "too many " +:+ pretty status_code +:+ " error responses".

(** [increment(method, url, response=.., error=..)].  [total] is an
    integer, so the [total is False] test at the top never fires. *)
Definition increment (self : t) (method url : string)
    (response : option HTTPResponse) (error : option wire_error)
    : increment_result :=
  let total := (total self - 1)%Z in
  let finish connect read redirect status_count other cause status
             redirect_location :=
    let history := history self ++
      [mk_RequestHistory method url error status redirect_location] in
    let new_retry :=
      new self total connect read redirect status_count other history in
    if is_exhausted new_retry then
      MaxRetry url (match error with
                    | Some e => ReasonError e
                    | None => ResponseError cause
                    end)
    else Incremented new_retry in
  match error with
  | Some e =>
      if _is_connection_error e then
        match connect self with
        | CFalse => Reraised e
        | c => finish (counter_decr c) (read self) (redirect self)
                 (status_count self) (other self) "unknown" None None
        end
      else if _is_read_error e then
        if match read self with CFalse => true | _ => false end
           || negb (_is_method_retryable self method)
        then Reraised e
        else finish (connect self) (counter_decr (read self))
               (redirect self) (status_count self) (other self)
               "unknown" None None
      else
        finish (connect self) (read self) (redirect self)
          (status_count self) (counter_decr (other self))
          "unknown" None None
  | None =>
      let status_error (status : Z) :=
        if (status =? 0)%Z then
          finish (connect self) (read self) (redirect self)
            (status_count self) (other self) GENERIC_ERROR None None
        else
          finish (connect self) (read self) (redirect self)
            (counter_decr (status_count self)) (other self)
            (SPECIFIC_ERROR status) (Some status) None in
      match response with
      | Some r =>
          match get_redirect_location r with
          | Some loc =>
              if str_truthy loc then
                finish (connect self) (read self)
                  (counter_decr (redirect self)) (status_count self)
                  (other self) "too many redirects"
                  (Some (status r)) (Some loc)
              else status_error (status r)
          | None => status_error (status r)
          end
      | None =>
          finish (connect self) (read self) (redirect self)
            (status_count self) (other self) GENERIC_ERROR None None
      end
  end.
End Retry.

(** ** Python values passed as keyword arguments *)
Inductive value : Type :=
  | VNone
  | VBool (b : bool)
  | VInt (n : Z)
  | VFloat (q : Q)
  | VStr (s : string)
  | VRetry (r : Retry.t).

(** ** Effects

    The helper prints, sleeps between retries and talks to the network; a
    call either returns or raises. *)

(** One request as it went out on the wire. *)
Record sent_request : Type := mk_sent_request {
  sent_method : string;
  sent_url : string;
  sent_headers : CaseInsensitiveDict.t;
  sent_body : option string;
  sent_timeout : value
}.

Record World : Type := mk_World {
  stdout : list string;         (* lines written by [print] *)
  slept : list Q;               (* arguments of [time.sleep], in order *)
  sent : list sent_request      (* requests put on the wire, in order *)
}.

Inductive outcome (A : Type) : Type :=
  | Return (a : A)
  | Raise (e : exn).
Arguments Return {A} a.
Arguments Raise {A} e.

Definition M (A : Type) : Type := World -> outcome A * World.

Definition ret {A} (a : A) : M A := fun w => (Return a, w).
Definition raise {A} (e : exn) : M A := fun w => (Raise e, w).
Definition bind {A B} (m : M A) (k : A -> M B) : M B := fun w =>
  match m w with
  | (Return a, w') => k a w'
  | (Raise e, w') => (Raise e, w')
  end.

Notation "x <- m ;; k" := (bind m (fun x => k))
  (at level 100, m at next level, right associativity).
Notation "m ;;; k" := (bind m (fun _ => k))
  (at level 100, right associativity).

Definition lift {A} (o : outcome A) : M A := fun w => (o, w).

Definition print (line : string) : M unit := fun w =>
  (Return tt, mk_World (stdout w ++ [line]) (slept w) (sent w)).

Definition time_sleep (seconds : Q) : M unit := fun w =>
  (Return tt, mk_World (stdout w) (slept w ++ [seconds]) (sent w)).

(** ** [http_exceptions] (ApiHelper.py, lines 69-97) *)

(** What the wrapper hands back: the initial [False], or the value of the
    wrapped call. *)
Inductive wrapper_result (A : Type) : Type :=
  | PyFalse
  | Value (a : A).
Arguments PyFalse {A}.
Arguments Value {A} a.

(** Truth value of a wrapper result, given the truth value of [A]. *)
Definition truthy {A} (truth : A -> bool) (r : wrapper_result A) : bool :=
  match r with PyFalse => false | Value a => truth a end.

Definition http_exceptions {Args A} (func : Args -> M A)
  : Args -> M (wrapper_result A) :=
  let wrapper (args : Args) : M (wrapper_result A) := fun w =>
    let wrapper_result := PyFalse in
    match func args w with
    | (Return a, w') => (Return (Value a), w')
    | (Raise err, w') =>
        if isinstance err HTTPError then
          (print ("Http Error: " +:+ exn_str err) ;;; ret wrapper_result) w'
        else if isinstance err ConnectionError then
          (print ("Error Connecting: " +:+ exn_str err) ;;;
           ret wrapper_result) w'
        else if isinstance err Timeout then
          (print ("Timeout Error: " +:+ exn_str err) ;;;
           ret wrapper_result) w'
        else if isinstance err RequestException then
          (print ("Generic Request Exception: " +:+ exn_str err) ;;;
           ret wrapper_result) w'
        else if isinstance err RequestsWarning then
          (print ("HTTP: Request warning encountered: " +:+ exn_str err) ;;;
           ret wrapper_result) w'
        else if isinstance err MaxRetryError then
          (print ("HTTP: Max retries reached, request failed: "
                  +:+ exn_str err) ;;; ret wrapper_result) w'
        else (Raise err, w')
    end
  in wrapper.

(** ** Requests and responses ([requests.models]) *)

(** [requests.Response]; [elapsed], cookies and the connection are left
    out. *)
Record Response : Type := mk_Response {
  status_code : Z;
  headers : CaseInsensitiveDict.t;
  resp_reason : string;
  resp_url : string;
  content : string
}.

(** A response hook: it returns [None] or a replacement response. *)
Definition hook : Type := Response -> M (option Response).

Record PreparedRequest : Type := mk_PreparedRequest {
  method : string;
  url : string;
  req_headers : CaseInsensitiveDict.t;
  body : option string;
  hooks : list hook              (* the hooks of the "response" event *)
}.

(** [Response.raise_for_status] *)
Definition raise_for_status (self : Response) : M unit :=
  let http_error_msg :=
    if bool_decide (400 <= status_code self < 500)%Z then
      pretty (status_code self) +:+ " Client Error: " +:+ resp_reason self
      +:+ " for url: " +:+ resp_url self
    else if bool_decide (500 <= status_code self < 600)%Z then
      pretty (status_code self) +:+ " Server Error: " +:+ resp_reason self
      +:+ " for url: " +:+ resp_url self
    else "" in
  if str_truthy http_error_msg then raise (mk_exn HTTPError http_error_msg)
  else ret tt.

(** [Response.ok], which is also the truth value of a response. *)
Definition ok (self : Response) : bool :=
  negb (bool_decide (400 <= status_code self < 600)%Z).

(** [requests.hooks.dispatch_hook("response", hooks, hook_data)] *)
Fixpoint dispatch_hook (hooks : list hook) (hook_data : Response)
  : M Response :=
  match hooks with
  | [] => ret hook_data
  | h :: hooks' =>
      _hook_data <- h hook_data ;;
      dispatch_hook hooks'
        (match _hook_data with Some r => r | None => hook_data end)
  end.

(** ** The world outside the program

    What neither the repository nor the embedded library code decides. *)
Class Environment : Type := {
  (** the [n]-th round trip on the wire: request, timeout, and what came
      back *)
  wire : nat -> PreparedRequest -> value -> HTTPResponse + wire_error;
  (** seconds from now until an HTTP date ([email.utils] and the clock);
      [None] when the text is not a date *)
  seconds_until : string -> option Q;
  (** [str(MaxRetryError(pool, url, reason))] *)
  max_retry_message : string -> max_retry_reason -> string;
  (** query parameters, form data and JSON payloads of a call *)
  params_t : Type;
  data_t : Type;
  json_t : Type;
  (** [PreparedRequest.prepare_url]: normalisation and query encoding;
      raises [MissingSchema] or [InvalidURL] *)
  prepare_url : string -> option params_t -> outcome string;
  (** body encoding of [prepare_body]: the body and its content type;
      raises [InvalidJSONError], a [RequestException] *)
  encode_body :
    option data_t -> option json_t -> outcome (option string * option string);
  (** [check_header_validity] *)
  header_valid : string * string -> bool;
  (** [requests.utils.default_headers()] *)
  default_headers : CaseInsensitiveDict.t;
  (** the [Authorization] value of the basic credentials that [.netrc] or
      the URL itself supply for a URL, if any *)
  ambient_basic_auth : string -> option string;
  (** [Session.resolve_redirects]: where following the redirects of a
      response ends (the last response, or [TooManyRedirects] and the
      like); the follow-up requests are not part of the world above *)
  resolve_redirects : Response -> PreparedRequest -> outcome Response;
  (** the checks of [urllib.parse.urlsplit] on bracketed and on non-ASCII
      host names *)
  bracketed_netloc_ok : string -> bool;
  nfkc_netloc_ok : string -> bool
}.

(** ** Sleeping between retries ([urllib3.util.retry]) *)

Definition is_space (c : ascii) : bool :=
  bool_decide (nat_of_ascii c ∈ [32; 9; 10; 11; 12; 13]).

Definition is_digit (c : ascii) : bool :=
  let n := nat_of_ascii c in (48 <=? n)%nat && (n <=? 57)%nat.

Fixpoint lstrip (s : string) : string :=
  match s with
  | String c r => if is_space c then lstrip r else s
  | EmptyString => EmptyString
  end.

Definition strip (s : string) : string :=
  String.rev (lstrip (String.rev (lstrip s))).

(** [int(s)] for a string of decimal digits. *)
Definition int_of_digits (s : string) : Z :=
  fold_left (fun acc c => (10 * acc + Z.of_nat (nat_of_ascii c - 48))%Z)
            (String.list_ascii_of_string s) 0%Z.

(** [re.match(r"^\s*[0-9]+\s*$", s)] *)
Definition is_delay_seconds (s : string) : bool :=
  let digits := strip s in
  str_truthy digits && forallb is_digit (String.list_ascii_of_string digits).

Inductive urlopen_error : Type :=
  | UMaxRetryError (url : string) (reason : max_retry_reason)
  | UReraised (error : wire_error)
  | UInvalidHeader (message : string).

Section RetrySleep.
Context `{Environment}.

(** [Retry.parse_retry_after] *)
Definition parse_retry_after (retry_after : string)
  : Q + urlopen_error :=
  let clamp (seconds : Q) := if Qle_bool 0%Q seconds then seconds else 0%Q in
  if is_delay_seconds retry_after
  then inl (clamp (inject_Z (int_of_digits (strip retry_after))))
  else match seconds_until retry_after with
       | None => inr (UInvalidHeader
                        ("Invalid Retry-After header: " +:+ retry_after))
       | Some seconds => inl (clamp seconds)
       end.

(** [Retry.get_retry_after] *)
Definition get_retry_after (response : HTTPResponse)
  : option Q + urlopen_error :=
  match CaseInsensitiveDict.get "Retry-After" (raw_headers response) with
  | None => inl None
  | Some retry_after =>
      match parse_retry_after retry_after with
      | inl seconds => inl (Some seconds)
      | inr e => inr e
      end
  end.

(** [Retry.sleep_for_retry]: [True] when it slept. *)
Definition sleep_for_retry (response : HTTPResponse)
  : M (bool + urlopen_error) :=
  match get_retry_after response with
  | inr e => ret (inr e)
  | inl (Some retry_after) =>
      if Qeq_bool retry_after 0%Q then ret (inl false)
      else time_sleep retry_after ;;; ret (inl true)
  | inl None => ret (inl false)
  end.

(** [Retry._sleep_backoff] *)
Definition _sleep_backoff (self : Retry.t) : M unit :=
  let backoff := Retry.get_backoff_time self in
  if Qle_bool backoff 0%Q then ret tt else time_sleep backoff.

(** [Retry.sleep(response)] *)
Definition sleep (self : Retry.t) (response : option HTTPResponse)
  : M (unit + urlopen_error) :=
  match response with
  | Some r =>
      if Retry.respect_retry_after_header self then
        paused <- sleep_for_retry r ;;
        match paused with
        | inr e => ret (inr e)
        | inl true => ret (inl tt)
        | inl false => _sleep_backoff self ;;; ret (inl tt)
        end
      else _sleep_backoff self ;;; ret (inl tt)
  | None => _sleep_backoff self ;;; ret (inl tt)
  end.
End RetrySleep.

(** ** [HTTPConnectionPool.urlopen] (urllib3) *)

(** The record of a request as it goes out. *)
Definition on_the_wire (request : PreparedRequest) (timeout : value)
  : sent_request :=
  {| sent_method := method request; sent_url := url request;
     sent_headers := req_headers request; sent_body := body request;
     sent_timeout := timeout |}.

(** One exchange with the server. *)
Definition round_trip `{Environment} (request : PreparedRequest)
    (timeout : value) : M (HTTPResponse + wire_error) := fun w =>
  (Return (wire (length (sent w)) request timeout),
   mk_World (stdout w) (slept w)
     (sent w ++ [on_the_wire request timeout])).

(** [urlopen] as [requests] calls it: [redirect=False], so only the retry
    paths of the function are live.  Each retry is a nested call of
    [urlopen]; [depth] bounds the nesting, and [HTTPAdapter.send] below
    starts it with one more than the retry budget, which the recursion
    never uses up (lemma [urlopen_depth_enough]).

    [urlopen_attempt] is one pass through the body; [again] is the nested
    call that retries with the incremented strategy. *)
Definition urlopen_attempt `{Environment}
    (again : Retry.t -> M (HTTPResponse + urlopen_error))
    (request : PreparedRequest) (retries : Retry.t) (timeout : value)
  : M (HTTPResponse + urlopen_error) :=
  received <- round_trip request timeout ;;
  match received with
  | inr e =>
      match Retry.increment retries (method request) (url request)
              None (Some e) with
      | Retry.Reraised e' => ret (inr (UReraised e'))
      | Retry.MaxRetry u reason => ret (inr (UMaxRetryError u reason))
      | Retry.Incremented retries' =>
          paused <- sleep retries' None ;;
          match paused with
          | inr e' => ret (inr e')
          | inl _ => again retries'
          end
      end
  | inl response =>
      let has_retry_after :=
        match CaseInsensitiveDict.get "Retry-After" (raw_headers response) with
        | Some v => str_truthy v
        | None => false
        end in
      if Retry.is_retry retries (method request) (status response)
           has_retry_after
      then
        match Retry.increment retries (method request) (url request)
                (Some response) None with
        | Retry.Reraised e' => ret (inr (UReraised e'))
        | Retry.MaxRetry u reason =>
            if Retry.raise_on_status retries
            then ret (inr (UMaxRetryError u reason))
            else ret (inl response)
        | Retry.Incremented retries' =>
            paused <- sleep retries' (Some response) ;;
            match paused with
            | inr e' => ret (inr e')
            | inl _ => again retries'
            end
        end
      else ret (inl response)
  end.

Fixpoint urlopen `{Environment} (depth : nat) (request : PreparedRequest)
    (retries : Retry.t) (timeout : value) : M (HTTPResponse + urlopen_error) :=
  urlopen_attempt
    (fun retries' =>
       match depth with
       | S depth' => urlopen depth' request retries' timeout
       | O => raise (mk_exn RecursionError "maximum recursion depth exceeded")
       end)
    request retries timeout.

(** ** [requests.adapters.HTTPAdapter] *)
Module HTTPAdapter.
Record t : Type := mk { max_retries : Retry.t }.

Definition DEFAULT_RETRIES : Z := 0.

(** The constructor, given its keyword arguments: only
    [max_retries] matters here; pool sizes are accepted and dropped. *)
Definition __init__ (kwargs : gmap string value) : outcome t :=
  if bool_decide (dom kwargs ⊆
       ({["pool_connections"; "pool_maxsize"; "max_retries"; "pool_block"]}
        : gset string))
  then
    match kwargs !! "max_retries" with
    | None => Return (mk (Retry.from_total 0 CFalse))
    | Some (VInt n) =>
        if (n =? DEFAULT_RETRIES)%Z
        then Return (mk (Retry.from_total 0 CFalse))
        else Return (mk (Retry.from_total n CNone))
    | Some (VRetry r) => Return (mk r)
    | Some VNone => Return (mk (Retry.from_total 3 CNone))
    | Some _ =>
        Raise (mk_exn TypeError "max_retries is not a retry strategy")
    end
  else Raise (mk_exn TypeError
                "__init__() got an unexpected keyword argument").

(** [build_response(req, resp)] *)
Definition build_response (req : PreparedRequest) (resp : HTTPResponse)
  : Response :=
  {| status_code := status resp;
     headers := raw_headers resp;
     resp_reason := reason resp;
     resp_url := url req;
     content := data resp |}.

(** The exception of [requests] that [send] raises for an error of
    [urlopen]. *)
Definition translate `{Environment} (e : urlopen_error) : exn :=
  match e with
  | UMaxRetryError u reason =>
      let msg := max_retry_message u reason in
      match reason with
      | ReasonError err =>
          match err_kind err with
          | ConnectTimeoutError => mk_exn ConnectTimeout msg
          | WireProxyError _ => mk_exn ProxyError msg
          | WireSSLError => mk_exn SSLError msg
          | _ => mk_exn ConnectionError msg
          end
      | ResponseError _ => mk_exn RetryError msg
      end
  | UReraised err =>
      match err_kind err with
      | ProtocolError => mk_exn ConnectionError (err_str err)
      | WireProxyError _ => mk_exn ProxyError (err_str err)
      | WireSSLError => mk_exn SSLError (err_str err)
      | ReadTimeoutError => mk_exn ReadTimeout (err_str err)
      | ConnectTimeoutError =>
          mk_exn Urllib3ConnectTimeoutError (err_str err)
      | NewConnectionError =>
          mk_exn Urllib3NewConnectionError (err_str err)
      end
  | UInvalidHeader msg => mk_exn InvalidHeader msg
  end.

(** [send(request, timeout=..)] *)
Definition send `{Environment} (self : t) (request : PreparedRequest)
    (kwargs : gmap string value) : M Response :=
  let timeout := default VNone (kwargs !! "timeout") in
  resp <- urlopen (S (Z.to_nat (Retry.total (max_retries self))))
            request (max_retries self) timeout ;;
  match resp with
  | inr e => raise (translate e)
  | inl resp => ret (build_response request resp)
  end.
End HTTPAdapter.

(** ** The repository: constants of ApiHelper.py *)

Definition REQUEST_TIMEOUT : value := VInt 5.  (* Seconds *)

Definition default_retry_strategy : Retry.t :=
  {| Retry.total := 3;
     Retry.redirect := CInt 16;
     Retry.backoff_factor := 3 # 10;
     Retry.status_forcelist := [429; 500; 502; 503; 504]%Z;
     Retry.allowed_methods :=
       ["HEAD"; "GET"; "PUT"; "POST"; "PATCH"; "DELETE"; "OPTIONS"; "TRACE"];
     Retry.respect_retry_after_header := true;
     (* the arguments left at the defaults of [Retry] *)
     Retry.connect := CNone; Retry.read := CNone;
     Retry.status_count := CNone; Retry.other := CNone;
     Retry.raise_on_redirect := true; Retry.raise_on_status := true;
     Retry.history := [] |}.

(** ** [TimeoutHTTPAdapter] (ApiHelper.py, lines 100-118) *)
Module TimeoutHTTPAdapter.
Record t : Type := mk { timeout : value; super : HTTPAdapter.t }.

Definition __init__ (kwargs : gmap string value) : outcome t :=
  let timeout := REQUEST_TIMEOUT in
  let '(timeout, kwargs) :=
    match kwargs !! "timeout" with
    | Some v => (v, delete "timeout" kwargs)
    | None => (timeout, kwargs)
    end in
  match HTTPAdapter.__init__ kwargs with
  | Return super => Return (mk timeout super)
  | Raise e => Raise e
  end.

Definition send `{Environment} (self : t) (request : PreparedRequest)
    (kwargs : gmap string value) : M Response :=
  let timeout := default VNone (kwargs !! "timeout") in
  let kwargs :=
    match timeout with
    | VNone => <["timeout" := TimeoutHTTPAdapter.timeout self]> kwargs
    | _ => kwargs
    end in
  HTTPAdapter.send (super self) request kwargs.
End TimeoutHTTPAdapter.

(** ** [urllib.parse.urljoin] (Python standard library)

    On [str] arguments.  The two validity checks of [urlsplit] that need
    Unicode tables or IP address parsing are taken as predicates. *)
Module urllib_parse.
Definition uses_relative : list string :=
  [""; "ftp"; "http"; "gopher"; "nntp"; "imap"; "wais"; "file"; "https";
   "shttp"; "mms"; "prospero"; "rtsp"; "rtspu"; "sftp"; "svn"; "svn+ssh";
   "ws"; "wss"].

Definition uses_netloc : list string :=
  [""; "ftp"; "http"; "gopher"; "nntp"; "telnet"; "imap"; "wais"; "file";
   "mms"; "https"; "shttp"; "snews"; "prospero"; "rtsp"; "rtspu"; "rsync";
   "svn"; "svn+ssh"; "sftp"; "nfs"; "git"; "git+ssh"; "ws"; "wss"].

Definition uses_params : list string :=
  [""; "ftp"; "hdl"; "prospero"; "http"; "imap"; "https"; "shttp"; "rtsp";
   "rtspu"; "sip"; "sips"; "mms"; "sftp"; "tel"].

Definition is_alpha (c : ascii) : bool :=
  let n := nat_of_ascii c in
  ((65 <=? n) && (n <=? 90) || (97 <=? n) && (n <=? 122))%nat.

Definition is_ascii (c : ascii) : bool := (nat_of_ascii c <? 128)%nat.

(** membership in [scheme_chars] *)
Definition is_scheme_char (c : ascii) : bool :=
  is_alpha c || is_digit c
  || bool_decide (c ∈ ["+"; "-"; "."]%char).

Definition chars : string -> list ascii := String.list_ascii_of_string.
Definition str : list ascii -> string := String.string_of_list_ascii.

(** [c in s] *)
Definition contains (c : ascii) (s : string) : bool :=
  bool_decide (c ∈ chars s).

(** [s.split(c, 1)] when [c] occurs in [s]: the text before and after
    the first [c]. *)
Fixpoint split_once (c : ascii) (s : string) : option (string * string) :=
  match s with
  | EmptyString => None
  | String a r =>
      if bool_decide (a = c) then Some (EmptyString, r)
      else match split_once c r with
           | Some (before, after) => Some (String a before, after)
           | None => None
           end
  end.

(** [s.split(c)] *)
Fixpoint split (c : ascii) (s : string) : list string :=
  match s with
  | EmptyString => [EmptyString]
  | String a r =>
      if bool_decide (a = c) then EmptyString :: split c r
      else match split c r with
           | seg :: segs => String a seg :: segs
           | [] => [String a EmptyString]
           end
  end.

(** [sep.join(parts)] *)
Fixpoint join (sep : string) (parts : list string) : string :=
  match parts with
  | [] => ""
  | [p] => p
  | p :: ps => p +:+ sep +:+ join sep ps
  end.

(** [s.lstrip(_WHATWG_C0_CONTROL_OR_SPACE)] *)
Fixpoint lstrip_c0 (s : string) : string :=
  match s with
  | String c r => if (nat_of_ascii c <=? 32)%nat then lstrip_c0 r else s
  | EmptyString => EmptyString
  end.

Definition strip_c0 (s : string) : string :=
  String.rev (lstrip_c0 (String.rev (lstrip_c0 s))).

(** removal of tab, carriage return and line feed *)
Definition remove_unsafe (s : string) : string :=
  str (filter (fun c => nat_of_ascii c ∉ [9; 13; 10]) (chars s)).

(** [_splitnetloc(url, 2)] for a [url] that starts with two slashes,
    given the text after them. *)
Fixpoint _splitnetloc (after_slashes : string) : string * string :=
  match after_slashes with
  | EmptyString => (EmptyString, EmptyString)
  | String c r =>
      if bool_decide (c ∈ ["/"; "?"; "#"]%char)
      then (EmptyString, after_slashes)
      else let '(netloc, rest) := _splitnetloc r in (String c netloc, rest)
  end.

Record SplitResult : Type := mk_SplitResult {
  s_scheme : string; s_netloc : string; s_path : string;
  s_query : string; s_fragment : string
}.

Record ParseResult : Type := mk_ParseResult {
  scheme : string; netloc : string; path : string; params : string;
  query : string; fragment : string
}.

Section Checks.
(** [_check_bracketed_netloc] and [_checknetloc] pass *)
Variable bracketed_netloc_ok : string -> bool.
Variable nfkc_netloc_ok : string -> bool.

Definition invalid_ipv6 : exn := mk_exn ValueError "Invalid IPv6 URL".

Definition urlsplit (url scheme : string) : outcome SplitResult :=
  let url := lstrip_c0 url in
  let scheme := strip_c0 scheme in
  let url := remove_unsafe url in
  let scheme := remove_unsafe scheme in
  let '(scheme, url) :=
    match split_once ":" url, url with
    | Some (before, after), String c0 _ =>
        if str_truthy before && is_alpha c0
           && forallb is_scheme_char (chars before)
        then (lower before, after)
        else (scheme, url)
    | _, _ => (scheme, url)
    end in
  let split_rest (netloc url : string) : outcome SplitResult :=
    let '(url, fragment) :=
      match split_once "#" url with
      | Some (u, f) => (u, f)
      | None => (url, "")
      end in
    let '(url, query) :=
      match split_once "?" url with
      | Some (u, q) => (u, q)
      | None => (url, "")
      end in
    if negb (str_truthy netloc) || forallb is_ascii (chars netloc)
       || nfkc_netloc_ok netloc
    then Return (mk_SplitResult scheme netloc url query fragment)
    else Raise (mk_exn ValueError
                  "netloc contains invalid characters") in
  match url with
  | String "/" (String "/" after_slashes) =>
      let '(netloc, url) := _splitnetloc after_slashes in
      if contains "[" netloc && negb (contains "]" netloc)
         || contains "]" netloc && negb (contains "[" netloc)
      then Raise invalid_ipv6
      else if contains "[" netloc && contains "]" netloc
              && negb (bracketed_netloc_ok netloc)
      then Raise invalid_ipv6
      else split_rest netloc url
  | _ => split_rest "" url
  end.

(** [_splitparams]: the parameters of the last path segment. *)
Definition _splitparams (url : string) : string * string :=
  let segments := split "/" url in
  match rev segments with
  | last_seg :: front =>
      match split_once ";" last_seg with
      | Some (seg, params) =>
          (join "/" (rev (seg :: front)), params)
      | None => (url, "")
      end
  | [] => (url, "")
  end.

Definition urlparse (url scheme : string) : outcome ParseResult :=
  match urlsplit url scheme with
  | Raise e => Raise e
  | Return (mk_SplitResult scheme netloc url query fragment) =>
      let '(url, params) :=
        if bool_decide (scheme ∈ uses_params) && contains ";" url
        then _splitparams url
        else (url, "") in
      Return (mk_ParseResult scheme netloc url params query fragment)
  end.

Definition urlunsplit (scheme netloc url query fragment : string)
  : string :=
  let url :=
    if str_truthy netloc
       || (str_truthy scheme && bool_decide (scheme ∈ uses_netloc)
           && negb (startswith url "//"))
    then
      let url :=
        if str_truthy url && negb (startswith url "/")
        then "/" +:+ url else url in
      "//" +:+ netloc +:+ url
    else url in
  let url := if str_truthy scheme then scheme +:+ ":" +:+ url else url in
  let url := if str_truthy query then url +:+ "?" +:+ query else url in
  if str_truthy fragment then url +:+ "#" +:+ fragment else url.

Definition urlunparse (p : ParseResult) : string :=
  let url :=
    if str_truthy (params p) then path p +:+ ";" +:+ params p
    else path p in
  urlunsplit (scheme p) (netloc p) url (query p) (fragment p).

(** The loop of [urljoin] over the path segments. *)
Fixpoint resolve (segments resolved_path : list string) : list string :=
  match segments with
  | [] => resolved_path
  | seg :: segments' =>
      if bool_decide (seg = "..") then
        resolve segments' (removelast resolved_path)
      else if bool_decide (seg = ".") then
        resolve segments' resolved_path
      else resolve segments' (resolved_path ++ [seg])
  end.

(** [segments[1:-1] = filter(None, segments[1:-1])] *)
Definition drop_inner_empty (segments : list string) : list string :=
  match segments with
  | first :: (_ :: _) as rest =>
      first :: filter (fun s => str_truthy s = true) (removelast rest)
            ++ [List.last rest ""]
  | _ => segments
  end.

Definition urljoin (base url : string) : outcome string :=
  if negb (str_truthy base) then Return url
  else if negb (str_truthy url) then Return base
  else
    match urlparse base "" with
    | Raise e => Raise e
    | Return b =>
      match urlparse url (scheme b) with
      | Raise e => Raise e
      | Return u =>
        if negb (bool_decide (scheme u = scheme b))
           || negb (bool_decide (scheme u ∈ uses_relative))
        then Return url
        else if bool_decide (scheme u ∈ uses_netloc)
                && str_truthy (netloc u)
        then Return (urlunparse u)
        else
          let netloc :=
            if bool_decide (scheme u ∈ uses_netloc) then netloc b
            else netloc u in
          if negb (str_truthy (path u)) && negb (str_truthy (params u))
          then
            let query :=
              if str_truthy (query u) then query u else query b in
            Return (urlunparse
                      (mk_ParseResult (scheme u) netloc (path b)
                         (params b) query (fragment u)))
          else
            let base_parts := split "/" (path b) in
            let base_parts :=
              if bool_decide (List.last base_parts "" = "")
              then base_parts else removelast base_parts in
            let segments :=
              if startswith (path u) "/" then split "/" (path u)
              else drop_inner_empty
                     (base_parts ++ split "/" (path u)) in
            let resolved_path := resolve segments [] in
            let resolved_path :=
              if bool_decide (List.last segments "" ∈ ["."; ".."])
              then resolved_path ++ [""] else resolved_path in
            let joined := join "/" resolved_path in
            Return (urlunparse
                      (mk_ParseResult (scheme u) netloc
                         (if str_truthy joined then joined else "/")
                         (params u) (query u) (fragment u)))
      end
    end.
End Checks.
End urllib_parse.

(** ** Authentication callables ([requests.auth.AuthBase])

    An authenticator is called with the request object being prepared and
    returns a request object.  Objects live in a store, so that "the same
    object" and "an equal object" are different statements. *)
Abbreviation loc := positive.
Abbreviation heap := (gmap positive PreparedRequest).

Class AuthBase (A : Type) : Type := {
  __call__ : A -> loc -> heap -> loc * heap
}.

Definition set_req_headers (f : CaseInsensitiveDict.t -> CaseInsensitiveDict.t)
    (r : PreparedRequest) : PreparedRequest :=
  {| method := method r; url := url r; req_headers := f (req_headers r);
     body := body r; hooks := hooks r |}.

(** [register_hook("response", hook)] for each of [new_hooks] *)
Definition register_hooks (new_hooks : list hook) (r : PreparedRequest)
  : PreparedRequest :=
  {| method := method r; url := url r; req_headers := req_headers r;
     body := body r; hooks := hooks r ++ new_hooks |}.

(** ** [BearerAuth] (auth/BearerAuth.py) *)
Module BearerAuth.
Record t : Type := mk { token : string }.

Definition __init__ (token : string) : t := mk token.

(** [r.headers["Authorization"] = "Bearer " + self.token; return r] *)
Definition __call__ (self : t) (r : loc) (h : heap) : loc * heap :=
  let h :=
    alter (set_req_headers
             (CaseInsensitiveDict.__setitem__ "Authorization"
                ("Bearer " +:+ token self))) r h in
  (r, h).
End BearerAuth.

#[global] Instance BearerAuth_AuthBase : AuthBase BearerAuth.t :=
  {| __call__ := BearerAuth.__call__ |}.

(** ** Connection adapters mounted on a session *)
Inductive adapter : Type :=
  | PlainAdapter (a : HTTPAdapter.t)
  | TimeoutAdapter (a : TimeoutHTTPAdapter.t).

Definition adapter_send `{Environment} (a : adapter)
    (request : PreparedRequest) (kwargs : gmap string value) : M Response :=
  match a with
  | PlainAdapter a => HTTPAdapter.send a request kwargs
  | TimeoutAdapter a => TimeoutHTTPAdapter.send a request kwargs
  end.

Definition adapter_max_retries (a : adapter) : Retry.t :=
  match a with
  | PlainAdapter a => HTTPAdapter.max_retries a
  | TimeoutAdapter a =>
      HTTPAdapter.max_retries (TimeoutHTTPAdapter.super a)
  end.

(** ** [requests.Session] and [requests_toolbelt.sessions.BaseUrlSession] *)
Inductive session_class : Type := SessionClass | BaseUrlSessionClass.

Section Sessions.
Context `{Environment} {A : Type} `{AuthBase A}.

Record Session : Type := mk_Session {
  class_ : session_class;
  base_url : option string;
  session_headers : CaseInsensitiveDict.t;
  session_auth : option A;
  session_hooks : list hook;           (* hooks["response"] *)
  adapters : list (string * adapter)   (* an ordered dictionary *)
}.

(** Keyword arguments of one call: the per-call parameters the helper
    documents. *)
Record call_kwargs : Type := mk_call_kwargs {
  kw_params : option params_t;
  kw_data : option data_t;
  kw_json : option json_t;
  kw_headers : option (list (string * option string));
  kw_timeout : value
}.

(** [d[k] = v] on an ordered dictionary *)
Fixpoint dict_set {V} (k : string) (v : V) (d : list (string * V))
  : list (string * V) :=
  match d with
  | [] => [(k, v)]
  | (k', v') :: d' =>
      if bool_decide (k' = k) then (k, v) :: d'
      else (k', v') :: dict_set k v d'
  end.

(** [Session.mount]: set the adapter, then move every shorter prefix
    behind it. *)
Definition mount (prefix : string) (a : adapter) (self : Session)
  : Session :=
  let adapters := dict_set prefix a (adapters self) in
  let shorter (kv : string * adapter) : bool :=
    (String.length kv.1 <? String.length prefix)%nat in
  let adapters :=
    List.filter (fun kv => negb (shorter kv)) adapters
    ++ List.filter shorter adapters in
  {| class_ := class_ self; base_url := base_url self;
     session_headers := session_headers self; session_auth := session_auth self;
     session_hooks := session_hooks self; adapters := adapters |}.

(** [Session.get_adapter] *)
Definition get_adapter (self : Session) (url : string) : outcome adapter :=
  match List.find (fun kv : string * adapter =>
                     startswith (lower url) (lower kv.1))
                  (adapters self) with
  | Some (_, a) => Return a
  | None => Raise (mk_exn InvalidSchema
                     ("No connection adapters were found for " +:+ url))
  end.

(** [HTTPAdapter()] *)
Definition default_adapter : adapter :=
  PlainAdapter (HTTPAdapter.mk (Retry.from_total 0 CFalse)).

(** [requests.Session()] *)
Definition Session__init__ : Session :=
  mount "http://" default_adapter
    (mount "https://" default_adapter
       {| class_ := SessionClass; base_url := None;
          session_headers := default_headers; session_auth := None;
          session_hooks := []; adapters := [] |}).

(** [BaseUrlSession(base_url=base_url)] *)
Definition BaseUrlSession__init__ (base_url : string) : Session :=
  let s := Session__init__ in
  {| class_ := BaseUrlSessionClass;
     base_url := if str_truthy base_url then Some base_url else None;
     session_headers := session_headers s;
     session_auth := session_auth s;
     session_hooks := session_hooks s; adapters := adapters s |}.

(** [BaseUrlSession.create_url] *)
Definition create_url (self : Session) (url : string) : outcome string :=
  urllib_parse.urljoin bracketed_netloc_ok nfkc_netloc_ok
    (default "" (base_url self)) url.

(** [merge_setting(request_headers, session_headers)] *)
Definition merge_headers
    (request_headers : option (list (string * option string)))
    (session_headers : CaseInsensitiveDict.t) : CaseInsensitiveDict.t :=
  match request_headers with
  | None => session_headers
  | Some items =>
      let merged : gmap string (string * option string) :=
        fold_left (fun acc kv => <[lower kv.1 := (kv.1, kv.2)]> acc) items
          ((fun kv : string * string => (kv.1, Some kv.2))
             <$> session_headers) in
      omap (fun kv : string * option string =>
              match kv.2 with Some v => Some (kv.1, v) | None => None end)
           merged
  end.

(** [PreparedRequest.prepare_content_length] *)
Definition prepare_content_length (method : string) (body : option string)
    (headers : CaseInsensitiveDict.t) : CaseInsensitiveDict.t :=
  match body with
  | Some b =>
      if (0 <? String.length b)%nat
      then CaseInsensitiveDict.__setitem__ "Content-Length"
             (pretty (String.length b)) headers
      else headers
  | None =>
      if negb (bool_decide (method ∈ ["GET"; "HEAD"]))
         && negb (CaseInsensitiveDict.__contains__ "Content-Length" headers)
      then CaseInsensitiveDict.__setitem__ "Content-Length" "0" headers
      else headers
  end.

(** [PreparedRequest.prepare_auth]: the authenticator is handed the
    request object, and the request takes over the attributes of the
    object that comes back. *)
Definition prepare_auth (auth : option A) (p : PreparedRequest)
  : PreparedRequest :=
  let after_auth :=
    match auth with
    | Some a =>
        let self : loc := 1%positive in
        let '(r, h) := __call__ a self {[ self := p ]} in
        Some (default p (h !! r))
    | None =>
        match ambient_basic_auth (url p) with
        | Some basic =>
            Some (set_req_headers
                    (CaseInsensitiveDict.__setitem__ "Authorization" basic)
                    p)
        | None => None
        end
    end in
  match after_auth with
  | Some p' =>
      set_req_headers (prepare_content_length (method p') (body p')) p'
  | None => p
  end.

(** [Session.prepare_request] with [PreparedRequest.prepare] *)
Definition prepare_request (self : Session) (method url : string)
    (kw : call_kwargs) : outcome PreparedRequest :=
  let method := upper method in
  match prepare_url url (kw_params kw) with
  | Raise e => Raise e
  | Return url =>
      let headers := merge_headers (kw_headers kw) (session_headers self) in
      if negb (forallb header_valid (map_to_list headers).*2)
      then Raise (mk_exn InvalidHeader "Invalid header")
      else
        match encode_body (kw_data kw) (kw_json kw) with
        | Raise e => Raise e
        | Return (body, content_type) =>
            let headers := prepare_content_length method body headers in
            let headers :=
              match content_type with
              | Some ct =>
                  if str_truthy ct
                     && negb (CaseInsensitiveDict.__contains__
                                "content-type" headers)
                  then CaseInsensitiveDict.__setitem__ "Content-Type" ct
                         headers
                  else headers
              | None => headers
              end in
            let p :=
              prepare_auth (session_auth self)
                {| method := method; url := url; req_headers := headers;
                   body := body; hooks := [] |} in
            (* [prepare_hooks] comes last and registers the session's
               hooks behind those an authenticator added *)
            Return (register_hooks (session_hooks self) p)
        end
  end.

(** [Response.is_redirect] with [get_redirect_target] *)
Definition get_redirect_target (r : Response) : option string :=
  if bool_decide (status_code r ∈ REDIRECT_STATUSES)
  then CaseInsensitiveDict.get "location" (headers r)
  else None.

(** [Session.send] *)
Definition Session_send (self : Session) (request : PreparedRequest)
    (timeout : value) (allow_redirects : bool) : M Response :=
  adapter <- lift (get_adapter self (url request)) ;;
  r <- adapter_send adapter request {[ "timeout" := timeout ]} ;;
  r <- dispatch_hook (hooks request) r ;;
  if allow_redirects then
    match get_redirect_target r with
    | Some target =>
        if str_truthy target then lift (resolve_redirects r request)
        else ret r
    | None => ret r
    end
  else ret r.

(** [Session.request]; on a [BaseUrlSession] the URL is first joined to
    the base URL. *)
Definition Session_request (self : Session) (method url : string)
    (kw : call_kwargs) (allow_redirects : bool) : M Response :=
  url <- lift (match class_ self with
               | BaseUrlSessionClass => create_url self url
               | SessionClass => Return url
               end) ;;
  prep <- lift (prepare_request self method url kw) ;;
  Session_send self prep (kw_timeout kw) allow_redirects.

Definition Session_get self url kw := Session_request self "GET" url kw true.
Definition Session_options self url kw :=
  Session_request self "OPTIONS" url kw true.
Definition Session_head self url kw :=
  Session_request self "HEAD" url kw false.
Definition Session_post self url kw :=
  Session_request self "POST" url kw true.
Definition Session_put self url kw := Session_request self "PUT" url kw true.
Definition Session_patch self url kw :=
  Session_request self "PATCH" url kw true.
Definition Session_delete self url kw :=
  Session_request self "DELETE" url kw true.
End Sessions.
Arguments Session A : clear implicits.

(** ** [ApiHelper] (ApiHelper.py, lines 121-201) *)
Inductive verb : Type := GET | OPTIONS | HEAD | POST | PUT | PATCH | DELETE.

Section ApiHelper.
Context `{Environment} {A : Type} `{AuthBase A}.

Record ApiHelper : Type := mk_ApiHelper { http : Session A }.

(** Hook for HTTP responses: [return response.raise_for_status()], which
    is [None] when nothing is raised. *)
Definition assert_status_hook : hook := fun response =>
  raise_for_status response ;;; ret None.

Definition ApiHelper__init__ (baseurl : option string) (auth : option A)
  : outcome ApiHelper :=
  (* Start a Base URL session if requested *)
  let http :=
    if str_truthy (default "" baseurl)
    then BaseUrlSession__init__ (default "" baseurl)
    else Session__init__ in
  (* Mount the TimeoutHTTPAdapter with retry strategy for both http and
     https *)
  match TimeoutHTTPAdapter.__init__
          {[ "max_retries" := VRetry default_retry_strategy ]} with
  | Raise e => Raise e
  | Return https_adapter =>
      let http := mount "https://" (TimeoutAdapter https_adapter) http in
      match TimeoutHTTPAdapter.__init__
              {[ "max_retries" := VRetry default_retry_strategy ]} with
      | Raise e => Raise e
      | Return http_adapter =>
          let http := mount "http://" (TimeoutAdapter http_adapter) http in
          (* Assign the response hook to the session *)
          let http :=
            {| class_ := class_ http; base_url := base_url http;
               session_headers := session_headers http;
               session_auth := session_auth http;
               session_hooks := [assert_status_hook];
               adapters := adapters http |} in
          (* And configure authentication for the session if requested *)
          let http :=
            match auth with
            | Some a =>
                {| class_ := class_ http; base_url := base_url http;
                   session_headers := session_headers http;
                   session_auth := Some a;
                   session_hooks := session_hooks http;
                   adapters := adapters http |}
            | None => http
            end in
          Return (mk_ApiHelper http)
      end
  end.

(** The arguments of a verb method: [self], the URL and the keyword
    arguments ([params], [data] and [json] are among them). *)
Definition verb_args : Type := ApiHelper * string * call_kwargs.

Definition get : verb_args -> M (wrapper_result Response) :=
  http_exceptions
    (fun '(self, url, kwargs) => Session_get (http self) url kwargs).

Definition options : verb_args -> M (wrapper_result Response) :=
  http_exceptions
    (fun '(self, url, kwargs) => Session_options (http self) url kwargs).

Definition head : verb_args -> M (wrapper_result Response) :=
  http_exceptions
    (fun '(self, url, kwargs) => Session_head (http self) url kwargs).

Definition post : verb_args -> M (wrapper_result Response) :=
  http_exceptions
    (fun '(self, url, kwargs) => Session_post (http self) url kwargs).

Definition put : verb_args -> M (wrapper_result Response) :=
  http_exceptions
    (fun '(self, url, kwargs) => Session_put (http self) url kwargs).

Definition patch : verb_args -> M (wrapper_result Response) :=
  http_exceptions
    (fun '(self, url, kwargs) => Session_patch (http self) url kwargs).

Definition delete : verb_args -> M (wrapper_result Response) :=
  http_exceptions
    (fun '(self, url, kwargs) => Session_delete (http self) url kwargs).

(** The verb methods by name, and the session call each one wraps. *)
Definition call (v : verb) : verb_args -> M (wrapper_result Response) :=
  match v with
  | GET => get | OPTIONS => options | HEAD => head | POST => post
  | PUT => put | PATCH => patch | DELETE => delete
  end.

Definition verb_name (v : verb) : string :=
  match v with
  | GET => "GET" | OPTIONS => "OPTIONS" | HEAD => "HEAD" | POST => "POST"
  | PUT => "PUT" | PATCH => "PATCH" | DELETE => "DELETE"
  end.

Definition follows_redirects (v : verb) : bool :=
  match v with HEAD => false | _ => true end.

Definition session_call (v : verb) : verb_args -> M Response :=
  fun '(self, url, kwargs) =>
    Session_request (http self) (verb_name v) url kwargs
      (follows_redirects v).
End ApiHelper.
Arguments ApiHelper A : clear implicits.

(** ** The context manager of [ApiHelper] (ApiHelper.py, lines 159-164)

    [__exit__] closes the session, and [Session.close] closes every
    mounted adapter, which disposes of its connection pools.  Pools are
    not part of [World]; what is kept of [HTTPAdapter.close] is the event,
    under the prefix the adapter is mounted on. *)
Record Scope : Type := mk_Scope {
  scope_world : World;
  closed_adapters : list (string * adapter)   (* [close()] calls, in order *)
}.

Definition SM (X : Type) : Type := Scope -> outcome X * Scope.

(** A computation of [M], run in the world of the scope. *)
Definition in_world {X} (m : M X) : SM X := fun s =>
  let '(r, w) := m (scope_world s) in (r, mk_Scope w (closed_adapters s)).

(** [adapter.close()] *)
Definition adapter_close (prefix : string) (a : adapter) : SM unit := fun s =>
  (Return tt,
   mk_Scope (scope_world s) (closed_adapters s ++ [(prefix, a)])).

(** Truth value of a Python value. *)
Definition value_truthy (v : value) : bool :=
  match v with
  | VNone => false
  | VBool b => b
  | VInt n => negb (n =? 0)%Z
  | VFloat q => negb (Qeq_bool q 0)
  | VStr s => str_truthy s
  | VRetry _ => true
  end.

Section ContextManager.
Context {A : Type}.

(** [Session.close]: [for v in self.adapters.values(): v.close()] *)
Fixpoint close_adapters (l : list (string * adapter)) : SM unit :=
  match l with
  | [] => fun s => (Return tt, s)
  | (prefix, a) :: l' => fun s =>
      match adapter_close prefix a s with
      | (Return _, s') => close_adapters l' s'
      | (Raise e, s') => (Raise e, s')
      end
  end.

Definition Session_close (self : Session A) : SM unit :=
  close_adapters (adapters self).

Definition __enter__ (self : ApiHelper A) : SM (ApiHelper A) := fun s =>
  (Return self, s).

(** [__exit__(exc_type, exc_val, exc_tb)]: the session is closed; nothing
    is returned, that is [None]. *)
Definition __exit__ (self : ApiHelper A) (exc : option exn) : SM value :=
  fun s =>
    (* Cleanup - terminate the request session *)
    match Session_close (http self) s with
    | (Return _, s') => (Return VNone, s')
    | (Raise e, s') => (Raise e, s')
    end.

(** The statement [with mgr as target: body].  Its value is that of the
    body, or [None] when [__exit__] swallowed an exception of the body. *)
Definition with_statement {X} (mgr : ApiHelper A)
    (body : ApiHelper A -> SM X) : SM (option X) := fun s =>
  match __enter__ mgr s with
  | (Raise e, s1) => (Raise e, s1)
  | (Return target, s1) =>
      match body target s1 with
      | (Return x, s2) =>
          match __exit__ mgr None s2 with
          | (Return _, s3) => (Return (Some x), s3)
          | (Raise e, s3) => (Raise e, s3)
          end
      | (Raise e, s2) =>
          match __exit__ mgr (Some e) s2 with
          | (Return suppress, s3) =>
              if value_truthy suppress then (Return None, s3)
              else (Raise e, s3)
          | (Raise e', s3) => (Raise e', s3)
          end
      end
  end.
End ContextManager.

(** * Notions used in the statements *)

(** ** Failures the wrapper absorbs *)

(** A transport or HTTP-status failure: an HTTP error, a connection error,
    a timeout, any other request exception, or the exhaustion of the
    retries. *)
Definition transport_or_status_failure (e : exn) : bool :=
  isinstance e HTTPError || isinstance e ConnectionError
  || isinstance e Timeout || isinstance e RequestException
  || isinstance e MaxRetryError.

(** The text [http_exceptions] prints in front of [str(err)]. *)
Definition log_prefix (e : exn) : string :=
  if isinstance e HTTPError then "Http Error: "
  else if isinstance e ConnectionError then "Error Connecting: "
  else if isinstance e Timeout then "Timeout Error: "
  else if isinstance e RequestException then "Generic Request Exception: "
  else if isinstance e RequestsWarning
       then "HTTP: Request warning encountered: "
  else "HTTP: Max retries reached, request failed: ".

(** The world after one more printed line. *)
Definition logged (line : string) (w : World) : World :=
  mk_World (stdout w ++ [line]) (slept w) (sent w).

(** ** The session the helper builds *)

(** The adapter [TimeoutHTTPAdapter(max_retries=default_retry_strategy)]. *)
Definition helper_adapter : TimeoutHTTPAdapter.t :=
  TimeoutHTTPAdapter.mk REQUEST_TIMEOUT (HTTPAdapter.mk default_retry_strategy).

(** The timeout a request goes out with. *)
Definition effective_timeout (timeout : value) : value :=
  match timeout with VNone => REQUEST_TIMEOUT | _ => timeout end.

(** The session of [ApiHelper(baseurl, auth)]. *)
Definition helper_session `{Environment} {A : Type}
    (baseurl : option string) (auth : option A)
  : Session A :=
  {| class_ := if str_truthy (default "" baseurl)
               then BaseUrlSessionClass else SessionClass;
     base_url := if str_truthy (default "" baseurl) then baseurl else None;
     session_headers := default_headers;
     session_auth := auth;
     session_hooks := [assert_status_hook];
     adapters := [("https://", TimeoutAdapter helper_adapter);
                  ("http://", TimeoutAdapter helper_adapter)] |}.

(** The request a session call prepares, before anything is sent. *)
Definition outgoing_request `{Environment} {A : Type} `{AuthBase A}
    (self : Session A) (method url : string)
    (kw : call_kwargs) : outcome PreparedRequest :=
  match match class_ self with
        | BaseUrlSessionClass => create_url self url
        | SessionClass => Return url
        end with
  | Raise e => Raise e
  | Return url => prepare_request self method url kw
  end.

Definition is_http_url (url : string) : bool :=
  startswith (lower url) "https://" || startswith (lower url) "http://".

(** ** The retry strategy, attempt by attempt *)

(** The strategy object after the failures recorded in [hist]. *)
Definition strategy_after (hist : list RequestHistory) : Retry.t :=
  Retry.new default_retry_strategy (3 - Z.of_nat (length hist))
    CNone CNone (CInt 16) CNone CNone hist.

Definition plain_failures (hist : list RequestHistory) : Prop :=
  Forall (fun h => rh_redirect_location h = None) hist.

(** The entry [increment] adds to the history for a failed attempt. *)
Definition failure_entry (request : PreparedRequest)
    (x : HTTPResponse + wire_error) : RequestHistory :=
  match x with
  | inl resp =>
      mk_RequestHistory (method request) (url request) None
        (Some (status resp)) None
  | inr e =>
      mk_RequestHistory (method request) (url request) (Some e) None None
  end.

Definition failure_reason (x : HTTPResponse + wire_error) : max_retry_reason :=
  match x with
  | inl resp => ResponseError (Retry.SPECIFIC_ERROR (status resp))
  | inr e => ReasonError e
  end.

(** What [_sleep_backoff] sleeps once [n] failures are on record. *)
Definition pause_after (n : nat) : list Q :=
  if (n <=? 1)%nat then []
  else [Qmin Retry.DEFAULT_BACKOFF_MAX
          ((3 # 10) * inject_Z (2 ^ Z.of_nat (n - 1)))].

(** [bool(response.headers.get("Retry-After"))] *)
Definition has_retry_after (resp : HTTPResponse) : bool :=
  match CaseInsensitiveDict.get "Retry-After" (raw_headers resp) with
  | Some v => str_truthy v
  | None => false
  end.

(** A failed attempt that the strategy retries after its own backoff: a
    status of the force list without a [Retry-After] header, or an error
    of the transport. *)
Definition backoff_failure (x : HTTPResponse + wire_error) : Prop :=
  match x with
  | inl resp =>
      status resp ∈ Retry.status_forcelist default_retry_strategy
      /\ CaseInsensitiveDict.get "Retry-After" (raw_headers resp) = None
  | inr _ => True
  end.

(** ** Timeouts, names, budgets, scopes and the order of adapters *)

(** A timeout urllib3 accepts: [None] or a positive number.  With any
    other value [HTTPAdapter.send] raises a [ValueError] before anything
    is sent; that check is not part of [HTTPAdapter.send] above, and the
    statements that depend on it ask for a valid timeout. *)
Definition valid_timeout (t : value) : Prop :=
  match t with
  | VNone => True
  | VInt n => (0 < n)%Z
  | VFloat q => (0 < q)%Q
  | _ => False
  end.

(** Text in ASCII.  [lower] and [upper] change ASCII letters only, as
    the methods of [bytes] do; on other letters [str.lower] does more, so
    what is stated about the case of names is stated for ASCII names. *)
Definition ascii_text (s : string) : bool :=
  forallb urllib_parse.is_ascii (String.list_ascii_of_string s).

(** The requests sent and the sleeps made up to [p], counted against the
    failures already on record: four requests and three sleeps in all. *)
Definition within_budget {X} (hist : list RequestHistory) (w : World)
    (p : X * World) : Prop :=
  (length (sent p.2) + length hist <= length (sent w) + 4)%nat
  /\ (length (slept p.2) + length hist <= length (slept w) + 3)%nat.

(** The scope after the session of a helper has been closed. *)
Definition released (s : Scope) : Scope :=
  mk_Scope (scope_world s)
    (closed_adapters s ++ [("https://", TimeoutAdapter helper_adapter);
                           ("http://", TimeoutAdapter helper_adapter)]).

(** The order [Session.mount] keeps the adapters in: longer prefixes
    first. *)
Definition longest_first {V} (d : list (string * V)) : Prop :=
  StronglySorted
    (fun x y => (String.length y.1 <= String.length x.1)%nat) d.

(** * Sample environments

    Small closed worlds on which the definitions above run: a scripted
    server, identity URL normalisation and raw bodies. *)
Definition response_with (status : Z) (header_items : list (string * string))
    (data : string) : HTTPResponse :=
  {| status := status;
     raw_headers :=
       fold_left (fun d kv => CaseInsensitiveDict.__setitem__ kv.1 kv.2 d)
                 header_items ∅;
     reason := ""; data := data |}.

Definition scripted (script : nat -> HTTPResponse + wire_error)
  : Environment :=
  {| wire := fun n _ _ => script n;
     seconds_until := fun _ => None;
     max_retry_message := fun u _ => "Max retries exceeded with url: " +:+ u;
     params_t := string;
     data_t := string;
     json_t := string;
     prepare_url := fun u _ => Return u;
     encode_body := fun d j =>
       Return (match d with Some b => Some b | None => j end, None);
     header_valid := fun _ => true;
     default_headers := ∅;
     ambient_basic_auth := fun _ => None;
     resolve_redirects := fun r _ => Return r;
     bracketed_netloc_ok := fun _ => true;
     nfkc_netloc_ok := fun _ => true |}.

Definition no_kwargs `{Environment} : call_kwargs :=
  {| kw_params := None; kw_data := None; kw_json := None;
     kw_headers := None; kw_timeout := VNone |}.

Definition fresh_world : World := mk_World [] [] [].

Definition ok_server : Environment :=
  scripted (fun _ => inl (response_with 200 [] "ok")).

Definition busy_server : Environment :=
  scripted (fun _ => inl (response_with 503 [] "busy")).

Definition missing_server : Environment :=
  scripted (fun _ => inl (response_with 404 [] "not found")).

(** A server that turns the first request down as too large and asks for
    a second try one second later. *)
Definition too_large_once : Environment :=
  scripted (fun n => match n with
                     | O => inl (response_with 413 [("Retry-After", "1")] "")
                     | _ => inl (response_with 200 [] "ok")
                     end).

(** A server that is busy, then throttles with [Retry-After: 5], then
    answers. *)
Definition throttling_server : Environment :=
  scripted (fun n => match n with
                     | 0%nat => inl (response_with 503 [] "busy")
                     | 1%nat =>
                         inl (response_with 429 [("Retry-After", "5")] "")
                     | _ => inl (response_with 200 [] "ok")
                     end).

Definition example_base_url : string := "https://api.example.com".
Definition example_auth : BearerAuth.t := BearerAuth.__init__ "abc123".

Definition example_helper `{Environment} : ApiHelper BearerAuth.t :=
  mk_ApiHelper (helper_session (Some example_base_url) (Some example_auth)).

(** The request that [get("/v1/users")] prepares on [example_helper]. *)
Definition example_request : PreparedRequest :=
  {| method := "GET";
     url := "https://api.example.com/v1/users";
     req_headers := {[ "authorization" := ("Authorization", "Bearer abc123") ]};
     body := None;
     hooks := [assert_status_hook] |}.

Definition ok_response : Response :=
  {| status_code := 200; headers := ∅; resp_reason := "";
     resp_url := "https://api.example.com/v1/users"; content := "ok" |}.

Definition timeout_10 `{Environment} : call_kwargs :=
  {| kw_params := None; kw_data := None; kw_json := None;
     kw_headers := None; kw_timeout := VInt 10 |}.

Definition busy_attempt : RequestHistory :=
  failure_entry example_request (inl (response_with 503 [] "busy")).

Definition throttled_attempt : RequestHistory :=
  failure_entry example_request
    (inl (response_with 429 [("Retry-After", "5")] "")).

(** A [GET] request with the headers of [example_auth]. *)
Definition bearer_get (u : string) : PreparedRequest :=
  {| method := "GET"; url := u;
     req_headers := {[ "authorization" := ("Authorization", "Bearer abc123") ]};
     body := None; hooks := [assert_status_hook] |}.

(** A helper made with an empty base URL, and one made without
    authentication. *)
Definition plain_helper `{Environment} : ApiHelper BearerAuth.t :=
  mk_ApiHelper (helper_session (Some "") (Some example_auth)).

Definition anonymous_helper `{Environment} : ApiHelper BearerAuth.t :=
  mk_ApiHelper (helper_session (Some example_base_url) None).

Definition anonymous_request : PreparedRequest :=
  {| method := "GET"; url := "https://api.example.com/v1/users";
     req_headers := ∅; body := None; hooks := [assert_status_hook] |}.

(** A server that answers 410 Gone, and the exception of [requests] for
    the retries that [busy_server] exhausts. *)
Definition gone_server : Environment :=
  scripted (fun _ => inl {| status := 410; raw_headers := ∅;
                            reason := "Gone"; data := "" |}).

Definition retries_exhausted : exn :=
  mk_exn RetryError
    "Max retries exceeded with url: https://api.example.com/v1/users".

(** A server that redirects every request. *)
Definition moved_server : Environment :=
  scripted (fun _ => inl (response_with 301 [("Location", "/elsewhere")] "")).

Definition head_request : PreparedRequest :=
  {| method := "HEAD";
     url := "https://api.example.com/v1/users";
     req_headers := {[ "authorization" := ("Authorization", "Bearer abc123") ]};
     body := None;
     hooks := [assert_status_hook] |}.

Definition moved_response : Response :=
  {| status_code := 301;
     headers := {[ "location" := ("Location", "/elsewhere") ]};
     resp_reason := "";
     resp_url := "https://api.example.com/v1/users"; content := "" |}.

(** A busy server whose [Retry-After] header is no number and no date,
    and one that asks for an hour. *)
Definition vague_server : Environment :=
  scripted (fun _ => inl (response_with 503 [("Retry-After", "soon")] "")).

Definition patient_server : Environment :=
  scripted (fun n => match n with
                     | O => inl (response_with 503 [("Retry-After", "3600")] "")
                     | _ => inl (response_with 200 [] "ok")
                     end).

(** The strategy after a failure, a redirect and a failure. *)
Definition redirected_attempt : RequestHistory :=
  mk_RequestHistory "GET" "https://api.example.com/v1/users" None
    (Some 302%Z) (Some "/v2/users").

Definition strategy_after_redirect : Retry.t :=
  Retry.new default_retry_strategy 0 CNone CNone (CInt 15) CNone CNone
    [busy_attempt; redirected_attempt; busy_attempt].

(** * Properties *)

(** ** The exception classes the wrapper absorbs *)

Lemma transport_or_status_failure_classes (e : exn) :
  transport_or_status_failure e
  = isinstance e RequestException || isinstance e MaxRetryError.
Proof. destruct e as [c s]. destruct c; reflexivity. Qed.

Lemma http_exceptions_returns {Args A} (func : Args -> M A) args w a w' :
  func args w = (Return a, w') ->
  http_exceptions func args w = (Return (Value a), w').
Proof. intros Hf. unfold http_exceptions. rewrite Hf. reflexivity. Qed.

Lemma http_exceptions_absorbs {Args A} (func : Args -> M A) args w e w' :
  func args w = (Raise e, w') ->
  transport_or_status_failure e = true ->
  http_exceptions func args w
  = (Return PyFalse, logged (log_prefix e +:+ exn_str e) w').
Proof.
  intros Hf He. unfold http_exceptions. rewrite Hf.
  unfold transport_or_status_failure in He. unfold log_prefix.
  destruct (isinstance e HTTPError); [reflexivity|].
  destruct (isinstance e ConnectionError); [reflexivity|].
  destruct (isinstance e Timeout); [reflexivity|].
  destruct (isinstance e RequestException); [reflexivity|].
  destruct (isinstance e RequestsWarning); [reflexivity|].
  simpl in He. rewrite He. reflexivity.
Qed.

Lemma http_exceptions_raises {Args A} (func : Args -> M A) args w e w' :
  http_exceptions func args w = (Raise e, w') ->
  func args w = (Raise e, w') /\ transport_or_status_failure e = false.
Proof.
  unfold http_exceptions, transport_or_status_failure.
  destruct (func args w) as [[a|err] w1]; [discriminate|].
  destruct (isinstance err HTTPError) eqn:H1; [discriminate|].
  destruct (isinstance err ConnectionError) eqn:H2; [discriminate|].
  destruct (isinstance err Timeout) eqn:H3; [discriminate|].
  destruct (isinstance err RequestException) eqn:H4; [discriminate|].
  destruct (isinstance err RequestsWarning); [discriminate|].
  destruct (isinstance err MaxRetryError) eqn:H5; [discriminate|].
  intros [= -> ->]. now rewrite H1, H2, H3, H4, H5.
Qed.

Section VerbCalls.
Context `{Environment} {A : Type} `{AuthBase A}.

Lemma call_eq (v : verb) :
  call v = http_exceptions (session_call (A := A) v).
Proof. destruct v; reflexivity. Qed.
End VerbCalls.

(** C10. Applying the Bearer authenticator to a request object returns
    that very object; in the store only this object changes, and of it only
    the [Authorization] header entry, which is set to ["Bearer " + token]:
    every other header entry and the method, URL, body and hooks stay as
    they were. *)
Theorem BearerAuth_call_frame (self : BearerAuth.t) (r : loc) (h : heap) :
  (BearerAuth.__call__ self r h).1 = r
  /\ (forall l, l <> r -> (BearerAuth.__call__ self r h).2 !! l = h !! l)
  /\ (forall req, h !! r = Some req ->
        exists req',
          (BearerAuth.__call__ self r h).2 !! r = Some req'
          /\ CaseInsensitiveDict.get "Authorization" (req_headers req')
             = Some ("Bearer " +:+ BearerAuth.token self)
          /\ (forall key, key <> "authorization" ->
                req_headers req' !! key = req_headers req !! key)
          /\ method req' = method req /\ url req' = url req
          /\ body req' = body req /\ hooks req' = hooks req).
Proof.
  unfold BearerAuth.__call__. simpl. split; [reflexivity|]. split.
  - intros l Hl. now rewrite lookup_alter_ne.
  - intros req Hreq. eexists. split.
    + rewrite lookup_alter_eq, Hreq. reflexivity.
    + unfold set_req_headers, CaseInsensitiveDict.get,
        CaseInsensitiveDict.__getitem__, CaseInsensitiveDict.__setitem__.
      simpl. repeat split.
      * change (lower "Authorization") with "authorization".
        now rewrite lookup_insert_eq.
      * intros key Hkey. change (lower "Authorization") with "authorization".
        now rewrite lookup_insert_ne.
Qed.

(** ** What a call leaves in the world *)
Section Wire.
Context `{Environment}.

Lemma sleep_for_retry_world response w res w' :
  sleep_for_retry response w = (res, w') ->
  sent w' = sent w /\ stdout w' = stdout w.
Proof.
  unfold sleep_for_retry.
  destruct (get_retry_after response) as [[q|]|e]; simpl.
  - destruct (Qeq_bool q 0); intros [= <- <-]; auto.
  - intros [= <- <-]; auto.
  - intros [= <- <-]; auto.
Qed.

Lemma _sleep_backoff_world retries w res w' :
  _sleep_backoff retries w = (res, w') ->
  sent w' = sent w /\ stdout w' = stdout w.
Proof.
  unfold _sleep_backoff.
  destruct (Qle_bool _ _); intros [= <- <-]; auto.
Qed.

Lemma sleep_world retries response w res w' :
  sleep retries response w = (res, w') ->
  sent w' = sent w /\ stdout w' = stdout w.
Proof.
  unfold sleep.
  assert (Hb : forall w (res : outcome (unit + urlopen_error)) w',
             (_sleep_backoff retries ;;; ret (inl tt)) w = (res, w') ->
             sent w' = sent w /\ stdout w' = stdout w).
  { clear. intros w res w'. unfold bind.
    destruct (_sleep_backoff retries w) as [[[]|e] w1] eqn:Hs;
      apply _sleep_backoff_world in Hs; intros [= <- <-]; auto. }
  destruct response as [r|]; [|apply Hb].
  destruct (Retry.respect_retry_after_header retries); [|apply Hb].
  unfold bind at 1.
  destruct (sleep_for_retry r w) as [[[[]|]|e] w1] eqn:Hs;
    apply sleep_for_retry_world in Hs as [Hs1 Hs2].
  - intros [= <- <-]; auto.
  - intros Hk. apply Hb in Hk as [? ?]. split; congruence.
  - intros [= <- <-]; auto.
  - intros [= <- <-]; auto.
Qed.

Lemma urlopen_world depth request retries timeout w res w' :
  urlopen depth request retries timeout w = (res, w') ->
  exists n, sent w' = sent w ++ replicate (S n) (on_the_wire request timeout)
            /\ stdout w' = stdout w.
Proof.
  revert retries w res w'.
  induction depth as [|depth IH]; intros retries w res w'; simpl;
    unfold urlopen_attempt, bind at 1, round_trip;
    set (w1 := mk_World _ _ _);
    assert (Hw1 : sent w1 = sent w ++ [on_the_wire request timeout]
                  /\ stdout w1 = stdout w) by (split; reflexivity);
    destruct Hw1 as [Hw1 Hw1'];
    clearbody w1.
  all: assert (Hone : forall (r : outcome (HTTPResponse + urlopen_error)),
           (r, w1) = (res, w') ->
           exists n, sent w' = sent w ++ replicate (S n)
                                     (on_the_wire request timeout)
                     /\ stdout w' = stdout w)
      by (intros r [= <- <-]; exists 0%nat; simpl; auto).
  all: assert (Hsl : forall retries' response k,
           (forall w2 res w', k w2 = (res, w') ->
              sent w2 = sent w1 -> stdout w2 = stdout w1 ->
              exists n, sent w' = sent w ++ replicate (S n)
                                        (on_the_wire request timeout)
                        /\ stdout w' = stdout w) ->
           (paused <- sleep retries' response ;;
            match paused with
            | inr e' => ret (inr e')
            | inl _ => k
            end) w1 = (res, w') ->
           exists n, sent w' = sent w ++ replicate (S n)
                                     (on_the_wire request timeout)
                     /\ stdout w' = stdout w).
  1,3: intros retries' response k Hk; unfold bind;
      destruct (sleep retries' response w1) as [[[[]|e]|e] w2] eqn:Hs;
      apply sleep_world in Hs as [Hs1 Hs2];
      [ intros Hr; eapply Hk; eauto
      | intros [= <- <-]; exists 0%nat; simpl; split; congruence
      | intros [= <- <-]; exists 0%nat; simpl; split; congruence ].
  all: destruct (wire _ _ _) as [response|e].
  all: repeat match goal with
       | |- context [if ?b then _ else _] => destruct b
       | |- context [match Retry.increment ?a ?b ?c ?d ?e with _ => _ end] =>
           destruct (Retry.increment a b c d e)
       end; try (apply Hone).
  all: apply Hsl.
  all: intros w2 r w3 Hr Hs1 Hs2.
  all: first
    [ injection Hr as <- <-; exists 0%nat; simpl; split; congruence
    | apply IH in Hr as (n & Hn & Hn'); exists (S n);
      rewrite Hn, Hs1, Hw1, Hn', Hs2, Hw1'; split; [|reflexivity];
      rewrite <- app_assoc; reflexivity ].
Qed.
End Wire.

(** ** The session the helper builds *)

Lemma TimeoutHTTPAdapter_init :
  TimeoutHTTPAdapter.__init__
    {[ "max_retries" := VRetry default_retry_strategy ]}
  = Return helper_adapter.
Proof. vm_compute. reflexivity. Qed.

Section Helper.
Context `{Environment} {A : Type} `{AuthBase A}.
Implicit Types (auth : option A).

Lemma ApiHelper__init___eq (baseurl : option string) (auth : option A) :
  ApiHelper__init__ baseurl auth
  = Return (mk_ApiHelper (helper_session baseurl auth)).
Proof.
  unfold ApiHelper__init__. rewrite TimeoutHTTPAdapter_init.
  unfold helper_session.
  destruct baseurl as [[|c b]|], auth; reflexivity.
Qed.

Lemma helper_get_adapter baseurl auth (url : string) :
  get_adapter (helper_session baseurl auth) url
  = if startswith (lower url) "https://" || startswith (lower url) "http://"
    then Return (TimeoutAdapter helper_adapter)
    else Raise (mk_exn InvalidSchema
                  ("No connection adapters were found for " +:+ url)).
Proof.
  unfold get_adapter, helper_session. cbn [adapters List.find fst].
  change (lower "https://") with "https://".
  change (lower "http://") with "http://".
  destruct (startswith (lower url) "https://"); [reflexivity|].
  destruct (startswith (lower url) "http://"); reflexivity.
Qed.

Lemma TimeoutHTTPAdapter_send_eq (self : TimeoutHTTPAdapter.t)
    (request : PreparedRequest) (t : value) :
  TimeoutHTTPAdapter.send self request {[ "timeout" := t ]}
  = HTTPAdapter.send (TimeoutHTTPAdapter.super self) request
      {[ "timeout" := match t with
                      | VNone => TimeoutHTTPAdapter.timeout self
                      | _ => t
                      end ]}.
Proof.
  unfold TimeoutHTTPAdapter.send. rewrite lookup_singleton_eq. simpl.
  destruct t; reflexivity.
Qed.

Lemma Session_request_eq self method url kw allow_redirects w :
  Session_request self method url kw allow_redirects w
  = match outgoing_request self method url kw with
    | Raise e => (Raise e, w)
    | Return prep => Session_send self prep (kw_timeout kw) allow_redirects w
    end.
Proof.
  unfold Session_request, outgoing_request, bind, lift.
  destruct (match class_ self with
            | BaseUrlSessionClass => _ | SessionClass => _ end);
    [|reflexivity].
  destruct (prepare_request self method a kw); reflexivity.
Qed.

Lemma helper_send_world baseurl auth prep timeout allow_redirects w res w' :
  session_hooks (helper_session baseurl auth) = hooks prep ->
  Session_send (helper_session baseurl auth) prep timeout allow_redirects w
  = (res, w') ->
  stdout w' = stdout w /\
  exists n, sent w'
            = sent w ++ replicate n
                          (on_the_wire prep (effective_timeout timeout)).
Proof.
  intros Hhooks. unfold Session_send. rewrite helper_get_adapter.
  destruct (_ || _).
  2:{ intros [= <- <-]. split; [reflexivity|]. exists 0%nat. simpl.
      now rewrite app_nil_r. }
  unfold bind at 1, lift at 1. unfold bind at 1. unfold adapter_send.
  rewrite TimeoutHTTPAdapter_send_eq. unfold HTTPAdapter.send.
  rewrite lookup_singleton_eq. simpl default.
  change (match timeout with VNone => REQUEST_TIMEOUT | _ => timeout end)
    with (effective_timeout timeout).
  unfold bind at 1.
  destruct (urlopen _ _ _ _ w) as [[[resp|e]|e] w1] eqn:Hu;
    apply urlopen_world in Hu as (n & Hn & Hn').
  - unfold ret at 1. rewrite <- Hhooks. simpl session_hooks.
    simpl dispatch_hook. unfold bind, assert_status_hook, bind,
      raise_for_status, raise, ret, lift.
    intros Hr. split; [|exists (S n)].
    all: repeat match type of Hr with
         | context [if ?b then _ else _] => destruct b
         | context [match ?o with Return _ => _ | Raise _ => _ end] =>
             destruct o
         | context [match ?o with Some _ => _ | None => _ end] =>
             destruct o
         end; injection Hr as <- <-; congruence.
  - intros [= <- <-]. split; [congruence|]. now exists (S n).
  - intros [= <- <-]. split; [congruence|]. now exists (S n).
Qed.
End Helper.

(** ** Requests prepared for a helper with Bearer (or no) authentication *)
Section BearerHelper.
Context `{Environment}.

Lemma prepare_content_length_other (m : string) (b : option string)
    (hs : CaseInsensitiveDict.t) (key : string) :
  lower key <> "content-length" ->
  CaseInsensitiveDict.get key (prepare_content_length m b hs)
  = CaseInsensitiveDict.get key hs.
Proof.
  intros Hk. unfold prepare_content_length, CaseInsensitiveDict.get,
    CaseInsensitiveDict.__getitem__, CaseInsensitiveDict.__setitem__.
  change (lower "Content-Length") with "content-length".
  destruct b as [b|].
  - destruct (0 <? String.length b)%nat; [|reflexivity].
    now rewrite lookup_insert_ne.
  - destruct (_ && _); [|reflexivity]. now rewrite lookup_insert_ne.
Qed.

Lemma prepare_auth_bearer (auth : option BearerAuth.t)
    (p : PreparedRequest) :
  method (prepare_auth auth p) = method p
  /\ url (prepare_auth auth p) = url p
  /\ body (prepare_auth auth p) = body p
  /\ hooks (prepare_auth auth p) = hooks p
  /\ (forall b, auth = Some b ->
        CaseInsensitiveDict.get "Authorization"
          (req_headers (prepare_auth auth p))
        = Some ("Bearer " +:+ BearerAuth.token b)).
Proof.
  unfold prepare_auth. destruct auth as [b|].
  - simpl. unfold BearerAuth.__call__.
    rewrite alter_singleton_eq, lookup_singleton_eq. simpl.
    repeat split. intros b' [= <-].
    rewrite prepare_content_length_other by discriminate.
    unfold CaseInsensitiveDict.get, CaseInsensitiveDict.__getitem__,
      CaseInsensitiveDict.__setitem__.
    now rewrite lookup_insert_eq.
  - destruct (ambient_basic_auth (url p)); simpl; repeat split;
      intros b [=].
Qed.

Lemma outgoing_request_facts (self : Session BearerAuth.t)
    (m u : string) (kw : call_kwargs) (prep : PreparedRequest) :
  prepare_request self m u kw = Return prep ->
  method prep = upper m
  /\ prepare_url u (kw_params kw) = Return (url prep)
  /\ hooks prep = session_hooks self
  /\ (forall b, session_auth self = Some b ->
        CaseInsensitiveDict.get "Authorization" (req_headers prep)
        = Some ("Bearer " +:+ BearerAuth.token b)).
Proof.
  unfold prepare_request.
  destruct (prepare_url u (kw_params kw)) as [u'|e]; [|discriminate].
  destruct (negb _); [discriminate|].
  destruct (encode_body _ _) as [[b ct]|e]; [|discriminate].
  intros [= <-].
  match goal with
  | |- context [prepare_auth ?a ?p] =>
      destruct (prepare_auth_bearer a p) as (Hm & Hu & Hb & Hh & Ha)
  end.
  unfold register_hooks. simpl. rewrite Hm, Hu, Hh. simpl.
  repeat split. exact Ha.
Qed.
End BearerHelper.

(** ** The helper's retry strategy, attempt by attempt *)

Lemma strategy_after_nil : strategy_after [] = default_retry_strategy.
Proof. reflexivity. Qed.

Lemma strategy_after_exhausted (hist : list RequestHistory) :
  Retry.is_exhausted (strategy_after hist) = (3 <? length hist)%nat.
Proof.
  unfold Retry.is_exhausted, strategy_after. cbn -[Z.sub Z.of_nat Nat.ltb].
  destruct (Z.eqb_spec (3 - Z.of_nat (length hist)) 0) as [E|E];
    cbn -[Z.sub Z.of_nat Nat.ltb].
  - symmetry. apply Nat.ltb_ge. lia.
  - destruct (Nat.ltb_spec 3 (length hist)).
    + apply Z.ltb_lt. lia.
    + apply Z.ltb_ge. lia.
Qed.

Lemma strategy_after_step (hist : list RequestHistory) (h : RequestHistory) :
  Retry.new (strategy_after hist) (Retry.total (strategy_after hist) - 1)
    CNone CNone (CInt 16) CNone CNone (hist ++ [h])
  = strategy_after (hist ++ [h]).
Proof.
  unfold strategy_after, Retry.new. cbn -[Z.sub Z.of_nat].
  rewrite length_app. cbn [length]. f_equal. lia.
Qed.

Lemma strategy_after_retryable (hist : list RequestHistory) (v : verb) :
  Retry._is_method_retryable (strategy_after hist) (upper (verb_name v))
  = true.
Proof. destruct v; vm_compute; reflexivity. Qed.

Lemma forcelist_status (s : Z) :
  s ∈ Retry.status_forcelist default_retry_strategy ->
  s = 429%Z \/ s = 500%Z \/ s = 502%Z \/ s = 503%Z \/ s = 504%Z.
Proof.
  cbn. rewrite !elem_of_cons, elem_of_nil. tauto.
Qed.

Lemma increment_after (hist : list RequestHistory) (request : PreparedRequest)
    (x : HTTPResponse + wire_error) :
  Retry._is_method_retryable (strategy_after hist) (method request) = true ->
  match x with
  | inl resp => status resp ∈ Retry.status_forcelist default_retry_strategy
  | inr _ => True
  end ->
  Retry.increment (strategy_after hist) (method request) (url request)
    (match x with inl resp => Some resp | inr _ => None end)
    (match x with inl _ => None | inr e => Some e end)
  = if (length hist <? 3)%nat
    then Retry.Incremented (strategy_after (hist ++ [failure_entry request x]))
    else Retry.MaxRetry (url request) (failure_reason x).
Proof.
  intros Hm Hx.
  assert (Hfin : forall h,
    (if Retry.is_exhausted
          (Retry.new (strategy_after hist)
             (Retry.total (strategy_after hist) - 1)
             CNone CNone (CInt 16) CNone CNone (hist ++ [h]))
     then Retry.MaxRetry (url request) (failure_reason x)
     else Retry.Incremented
            (Retry.new (strategy_after hist)
               (Retry.total (strategy_after hist) - 1)
               CNone CNone (CInt 16) CNone CNone (hist ++ [h])))
    = if (length hist <? 3)%nat
      then Retry.Incremented (strategy_after (hist ++ [h]))
      else Retry.MaxRetry (url request) (failure_reason x)).
  { intros h. rewrite strategy_after_step, strategy_after_exhausted.
    rewrite length_app. cbn [length].
    destruct (Nat.ltb_spec (length hist) 3), (Nat.ltb_spec 3 (length hist + 1));
      try reflexivity; lia. }
  unfold Retry.increment. destruct x as [resp|e].
  - assert (Hloc : get_redirect_location resp = None).
    { unfold get_redirect_location.
      apply forcelist_status in Hx.
      destruct Hx as [-> | [-> | [-> | [-> | ->]]]]; reflexivity. }
    assert (Hz : (status resp =? 0)%Z = false).
    { apply forcelist_status in Hx. apply Z.eqb_neq. lia. }
    rewrite Hloc, Hz. apply Hfin.
  - destruct (Retry._is_connection_error e); [apply Hfin|].
    destruct (Retry._is_read_error e); [|apply Hfin].
    rewrite Hm. apply Hfin.
Qed.

Lemma takewhile_all {X} (p : X -> bool) (l : list X) :
  Forall (fun x => p x = true) l -> Retry.takewhile p l = l.
Proof.
  induction 1 as [|x l Hx _ IH]; [reflexivity|].
  cbn. now rewrite Hx, IH.
Qed.

Lemma backoff_after (hist : list RequestHistory) :
  plain_failures hist ->
  Retry.get_backoff_time (strategy_after hist)
  = if (length hist <=? 1)%nat then 0%Q
    else Qmin Retry.DEFAULT_BACKOFF_MAX
           ((3 # 10) * inject_Z (2 ^ Z.of_nat (length hist - 1))).
Proof.
  intros Hp. unfold Retry.get_backoff_time.
  change (Retry.history (strategy_after hist)) with hist.
  rewrite takewhile_all, length_rev; [reflexivity|].
  apply List.Forall_rev. unfold plain_failures in Hp.
  rewrite List.Forall_forall in *. intros h Hh.
  now apply bool_decide_eq_true, Hp.
Qed.

Section RetrySteps.
Context `{Environment}.

Lemma _sleep_backoff_after (hist : list RequestHistory) (w : World) :
  plain_failures hist -> (length hist <= 3)%nat ->
  _sleep_backoff (strategy_after hist) w
  = (Return tt,
     mk_World (stdout w) (slept w ++ pause_after (length hist)) (sent w)).
Proof.
  intros Hp Hl. unfold _sleep_backoff. rewrite (backoff_after hist Hp).
  unfold pause_after.
  destruct hist as [|h1 [|h2 [|h3 [|h4 [|h5 hist]]]]];
    cbn [length] in *; try lia.
  1,2: cbn; rewrite app_nil_r; now destruct w.
  all: reflexivity.
Qed.

Lemma urlopen_retry (depth : nat) (request : PreparedRequest)
    (hist : list RequestHistory) (t : value) (w : World)
    (x : HTTPResponse + wire_error) :
  wire (length (sent w)) request t = x ->
  backoff_failure x ->
  Retry._is_method_retryable (strategy_after hist) (method request) = true ->
  plain_failures hist -> (length hist < 3)%nat ->
  urlopen (S depth) request (strategy_after hist) t w
  = urlopen depth request
      (strategy_after (hist ++ [failure_entry request x])) t
      (mk_World (stdout w) (slept w ++ pause_after (S (length hist)))
         (sent w ++ [on_the_wire request t])).
Proof.
  intros Hw Hx Hm Hp Hl.
  assert (Hp' : plain_failures (hist ++ [failure_entry request x])).
  { apply Forall_app. split; [exact Hp|].
    constructor; [|constructor]. now destruct x. }
  assert (Hl' : (length (hist ++ [failure_entry request x]) <= 3)%nat).
  { rewrite length_app. cbn. lia. }
  assert (Hlen : length (hist ++ [failure_entry request x])
                 = S (length hist)).
  { rewrite length_app. cbn. lia. }
  assert (Hlt : (length hist <? 3)%nat = true) by now apply Nat.ltb_lt.
  cbn [urlopen]. unfold urlopen_attempt at 1.
  unfold bind at 1, round_trip. rewrite Hw.
  destruct x as [resp|e].
  - destruct Hx as [Hs Hh]. rewrite Hh.
    unfold Retry.is_retry. rewrite Hm. cbn [negb].
    change (Retry.status_forcelist (strategy_after hist))
      with (Retry.status_forcelist default_retry_strategy).
    rewrite (bool_decide_eq_true_2 _ Hs).
    rewrite (increment_after hist request (inl resp) Hm Hs), Hlt.
    unfold bind at 1, sleep.
    change (Retry.respect_retry_after_header (strategy_after _)) with true.
    cbv iota. unfold bind at 1, sleep_for_retry, get_retry_after.
    rewrite Hh. unfold ret at 1. unfold bind at 1.
    rewrite (_sleep_backoff_after _ _ Hp' Hl'), Hlen. reflexivity.
  - rewrite (increment_after hist request (inr e) Hm I), Hlt.
    unfold bind at 1, sleep. unfold bind at 1.
    rewrite (_sleep_backoff_after _ _ Hp' Hl'), Hlen. reflexivity.
Qed.

Lemma urlopen_exhausted (depth : nat) (request : PreparedRequest)
    (hist : list RequestHistory) (t : value) (w : World)
    (x : HTTPResponse + wire_error) :
  wire (length (sent w)) request t = x ->
  match x with
  | inl resp => status resp ∈ Retry.status_forcelist default_retry_strategy
  | inr _ => True
  end ->
  Retry._is_method_retryable (strategy_after hist) (method request) = true ->
  length hist = 3%nat ->
  urlopen depth request (strategy_after hist) t w
  = (Return (inr (UMaxRetryError (url request) (failure_reason x))),
     mk_World (stdout w) (slept w) (sent w ++ [on_the_wire request t])).
Proof.
  intros Hw Hx Hm Hl.
  assert (Hlt : (length hist <? 3)%nat = false)
    by (apply Nat.ltb_ge; lia).
  destruct depth; cbn [urlopen]; unfold urlopen_attempt at 1;
    unfold bind at 1, round_trip; rewrite Hw; destruct x as [resp|e].
  all: try (unfold Retry.is_retry; rewrite Hm; cbn [negb];
            change (Retry.status_forcelist (strategy_after hist))
              with (Retry.status_forcelist default_retry_strategy);
            rewrite (bool_decide_eq_true_2 _ Hx);
            rewrite (increment_after hist request (inl resp) Hm Hx), Hlt;
            reflexivity).
  all: rewrite (increment_after hist request (inr e) Hm I), Hlt;
    reflexivity.
Qed.
End RetrySteps.

(** ** A helper call, end to end *)

Section HelperCalls.
Context `{Environment}.
Implicit Types (auth : option BearerAuth.t) (prep : PreparedRequest).

(** What the helper's session does with a prepared request: the retrying
    [urlopen], then the status hook, then the redirects. *)
Lemma helper_send_eq baseurl auth prep timeout allow_redirects w :
  is_http_url (url prep) = true ->
  hooks prep = [assert_status_hook] ->
  Session_send (helper_session baseurl auth) prep timeout allow_redirects w
  = match urlopen 4 prep default_retry_strategy
            (effective_timeout timeout) w with
    | (Return (inl resp), w1) =>
        let r := HTTPAdapter.build_response prep resp in
        match raise_for_status r w1 with
        | (Raise e, w2) => (Raise e, w2)
        | (Return _, w2) =>
            if allow_redirects then
              match get_redirect_target r with
              | Some target =>
                  if str_truthy target
                  then (resolve_redirects r prep, w2)
                  else (Return r, w2)
              | None => (Return r, w2)
              end
            else (Return r, w2)
        end
    | (Return (inr e), w1) => (Raise (HTTPAdapter.translate e), w1)
    | (Raise e, w1) => (Raise e, w1)
    end.
Proof.
  intros Hurl Hhooks. unfold Session_send. rewrite helper_get_adapter.
  unfold is_http_url in Hurl. rewrite Hurl.
  unfold bind at 1, lift at 1. unfold bind at 1. unfold adapter_send.
  rewrite TimeoutHTTPAdapter_send_eq. unfold HTTPAdapter.send.
  rewrite lookup_singleton_eq. simpl default.
  change (match timeout with VNone => REQUEST_TIMEOUT | _ => timeout end)
    with (effective_timeout timeout).
  unfold bind at 1.
  change (S (Z.to_nat _)) with 4%nat.
  change (HTTPAdapter.max_retries _) with default_retry_strategy.
  destruct (urlopen _ _ _ _ w) as [[[resp|e]|e] w1]; try reflexivity.
  rewrite Hhooks. cbn [dispatch_hook].
  unfold assert_status_hook, bind, ret, lift.
  destruct (raise_for_status _ w1) as [[[]|e] w2]; [|reflexivity].
  destruct allow_redirects; [|reflexivity].
  destruct (get_redirect_target _) as [target|]; [|reflexivity].
  destruct (str_truthy target); reflexivity.
Qed.

Lemma helper_prepared baseurl auth v u kw prep :
  outgoing_request (helper_session baseurl auth) (verb_name v) u kw
  = Return prep ->
  method prep = upper (verb_name v)
  /\ hooks prep = [assert_status_hook]
  /\ (forall b, auth = Some b ->
        CaseInsensitiveDict.get "Authorization" (req_headers prep)
        = Some ("Bearer " +:+ BearerAuth.token b))
  /\ exists target,
       match class_ (helper_session baseurl auth) with
       | BaseUrlSessionClass =>
           create_url (helper_session baseurl auth) u
       | SessionClass => Return u
       end = Return target
       /\ prepare_url target (kw_params kw) = Return (url prep).
Proof.
  unfold outgoing_request.
  destruct (match class_ _ with
            | BaseUrlSessionClass => _ | SessionClass => _ end)
    as [target|e]; [|discriminate].
  intros Hp. apply outgoing_request_facts in Hp as (Hm & Hu & Hh & Ha).
  repeat split; try assumption. now exists target.
Qed.

Lemma session_call_eq baseurl auth v u kw w :
  session_call v (mk_ApiHelper (helper_session baseurl auth), u, kw) w
  = match outgoing_request (helper_session baseurl auth) (verb_name v)
            u kw with
    | Raise e => (Raise e, w)
    | Return prep =>
        Session_send (helper_session baseurl auth) prep (kw_timeout kw)
          (follows_redirects v) w
    end.
Proof. unfold session_call. cbn [http]. apply Session_request_eq. Qed.

(** Every request a call puts on the wire is the request it prepared,
    with the timeout in effect. *)
Lemma helper_call_sent baseurl auth v u kw w res w' :
  call v (mk_ApiHelper (helper_session baseurl auth), u, kw) w
  = (res, w') ->
  exists new,
    sent w' = sent w ++ new
    /\ Forall (fun s => exists prep,
                 outgoing_request (helper_session baseurl auth)
                   (verb_name v) u kw = Return prep
                 /\ s = on_the_wire prep
                          (effective_timeout (kw_timeout kw))) new.
Proof.
  rewrite call_eq. unfold http_exceptions.
  rewrite session_call_eq.
  destruct (outgoing_request _ _ _ _) as [prep|e] eqn:Hprep.
  - destruct (Session_send _ _ _ _ w) as [r w1] eqn:Hsend.
    apply helper_send_world in Hsend as (_ & n & Hn).
    2:{ apply helper_prepared in Hprep as (_ & Hh & _). now rewrite Hh. }
    intros Hres. exists (replicate n
                      (on_the_wire prep (effective_timeout (kw_timeout kw)))).
    split.
    + rewrite <- Hn.
      destruct r; [now injection Hres as <- <-|].
      repeat match type of Hres with
             | context [if ?b then _ else _] => destruct b
             end; now injection Hres as <- <-.
    + apply Forall_replicate. now exists prep.
  - intros Hres. exists []. split; [|constructor]. rewrite app_nil_r.
    repeat match type of Hres with
           | context [if ?b then _ else _] => destruct b
           end; now injection Hres as <- <-.
Qed.
End HelperCalls.

(** ** Outcomes of a helper call *)
Section Outcomes.
Context `{Environment}.
Implicit Types (auth : option BearerAuth.t) (prep : PreparedRequest).

Lemma urlopen_no_retry (depth : nat) prep (retries : Retry.t) (t : value)
    (w : World) (resp : HTTPResponse) :
  wire (length (sent w)) prep t = inl resp ->
  Retry.is_retry retries (method prep) (status resp) (has_retry_after resp)
  = false ->
  urlopen depth prep retries t w
  = (Return (inl resp),
     mk_World (stdout w) (slept w) (sent w ++ [on_the_wire prep t])).
Proof.
  intros Hw Hr.
  destruct depth; cbn [urlopen]; unfold urlopen_attempt;
    unfold bind at 1, round_trip; rewrite Hw;
    fold (has_retry_after resp); rewrite Hr; reflexivity.
Qed.

(** A call whose request is prepared and whose URL the session can send:
    it comes down to [urlopen] on the helper's strategy. *)
Lemma helper_call_eq baseurl auth v u kw prep w :
  outgoing_request (helper_session baseurl auth) (verb_name v) u kw
  = Return prep ->
  is_http_url (url prep) = true ->
  call v (mk_ApiHelper (helper_session baseurl auth), u, kw) w
  = http_exceptions
      (fun _ : unit =>
         Session_send (helper_session baseurl auth) prep (kw_timeout kw)
           (follows_redirects v)) tt w.
Proof.
  intros Hprep Hurl. rewrite call_eq. unfold http_exceptions.
  now rewrite session_call_eq, Hprep.
Qed.

Lemma truthy_app (a b : string) :
  str_truthy b = true -> str_truthy (a +:+ b) = true.
Proof. destruct a; [trivial|reflexivity]. Qed.

Lemma status_error_raised prep (resp : HTTPResponse) (w : World) :
  (400 <= status resp < 600)%Z ->
  exists msg,
    raise_for_status (HTTPAdapter.build_response prep resp) w
    = (Raise (mk_exn HTTPError msg), w).
Proof.
  intros Hs. unfold raise_for_status.
  cbn [status_code HTTPAdapter.build_response].
  destruct (bool_decide (400 <= status resp < 500)%Z) eqn:H4.
  - eexists. rewrite truthy_app by reflexivity. reflexivity.
  - rewrite bool_decide_eq_true_2.
    + eexists. rewrite truthy_app by reflexivity. reflexivity.
    + apply bool_decide_eq_false in H4. lia.
Qed.

Lemma status_ok_passes prep (resp : HTTPResponse) (w : World) :
  ~ (400 <= status resp < 600)%Z ->
  raise_for_status (HTTPAdapter.build_response prep resp) w
  = (Return tt, w).
Proof.
  intros Hs. unfold raise_for_status.
  cbn [status_code HTTPAdapter.build_response].
  rewrite !bool_decide_eq_false_2 by lia. reflexivity.
Qed.

(** The helper's session hands a prepared request to the mounted
    [TimeoutHTTPAdapter] and runs the status hook on what comes back. *)
Lemma helper_send_adapter baseurl auth prep timeout allow_redirects w :
  is_http_url (url prep) = true ->
  hooks prep = [assert_status_hook] ->
  Session_send (helper_session baseurl auth) prep timeout allow_redirects w
  = match adapter_send (TimeoutAdapter helper_adapter) prep
            {[ "timeout" := timeout ]} w with
    | (Return r, w1) =>
        match raise_for_status r w1 with
        | (Raise e, w2) => (Raise e, w2)
        | (Return _, w2) =>
            if allow_redirects then
              match get_redirect_target r with
              | Some target =>
                  if str_truthy target
                  then (resolve_redirects r prep, w2)
                  else (Return r, w2)
              | None => (Return r, w2)
              end
            else (Return r, w2)
        end
    | (Raise e, w1) => (Raise e, w1)
    end.
Proof.
  intros Hurl Hhooks. unfold Session_send. rewrite helper_get_adapter.
  unfold is_http_url in Hurl. rewrite Hurl.
  unfold bind at 1, lift at 1. unfold bind at 1.
  destruct (adapter_send _ _ _ w) as [[r|e] w1]; [|reflexivity].
  rewrite Hhooks. cbn [dispatch_hook].
  unfold assert_status_hook, bind, ret, lift.
  destruct (raise_for_status r w1) as [[[]|e] w2]; [|reflexivity].
  destruct allow_redirects; [|reflexivity].
  destruct (get_redirect_target r) as [target|]; [|reflexivity].
  destruct (str_truthy target); reflexivity.
Qed.


(** A first answer with a 2xx status ends the call at once: one round
    trip, no sleep, and the response is what the verb method returns. *)
Lemma success_on_first_attempt baseurl auth self v u kw prep w resp :
  ApiHelper__init__ baseurl auth = Return self ->
  outgoing_request (http self) (verb_name v) u kw = Return prep ->
  is_http_url (url prep) = true ->
  wire (length (sent w)) prep (effective_timeout (kw_timeout kw))
  = inl resp ->
  (200 <= status resp < 300)%Z ->
  call v (self, u, kw) w
  = (Return (Value {| status_code := status resp;
                      headers := raw_headers resp;
                      resp_reason := reason resp;
                      resp_url := url prep;
                      content := data resp |}),
     mk_World (stdout w) (slept w)
       (sent w ++ [on_the_wire prep
                     (effective_timeout (kw_timeout kw))])).
Proof.
  rewrite ApiHelper__init___eq. intros [= <-]. cbn [http].
  intros Hprep Hurl Hw Hs.
  rewrite (helper_call_eq _ _ _ _ _ _ _ Hprep Hurl).
  apply http_exceptions_returns.
  destruct (helper_prepared _ _ _ _ _ _ Hprep) as (Hm & Hh & _).
  rewrite (helper_send_eq _ _ _ _ _ _ Hurl Hh).
  rewrite (urlopen_no_retry _ _ _ _ _ _ Hw).
  2:{ unfold Retry.is_retry. rewrite Hm.
      rewrite <- strategy_after_nil, strategy_after_retryable.
      cbn [negb]. rewrite strategy_after_nil.
      rewrite bool_decide_eq_false_2.
      2:{ intros Hin. apply forcelist_status in Hin. lia. }
      rewrite (bool_decide_eq_false_2 (status resp ∈ _)).
      2:{ unfold Retry.RETRY_AFTER_STATUS_CODES.
          rewrite !elem_of_cons, elem_of_nil. lia. }
      now rewrite andb_false_r. }
  cbv zeta. rewrite status_ok_passes by lia.
  unfold get_redirect_target. cbn [status_code HTTPAdapter.build_response].
  rewrite bool_decide_eq_false_2.
  2:{ unfold REDIRECT_STATUSES. rewrite !elem_of_cons, elem_of_nil. lia. }
  now destruct (follows_redirects v).
Qed.

Lemma translate_caught (e : urlopen_error) :
  (forall err, e <> UReraised err) ->
  transport_or_status_failure (HTTPAdapter.translate e) = true.
Proof.
  intros Hne. destruct e as [u0 [err|cause]|err|msg].
  - cbn. destruct (err_kind err); reflexivity.
  - reflexivity.
  - now destruct (Hne err).
  - reflexivity.
Qed.

Lemma helper_retryable hist v prep :
  method prep = upper (verb_name v) ->
  Retry._is_method_retryable (strategy_after hist) (method prep) = true.
Proof. intros ->. apply strategy_after_retryable. Qed.

Lemma not_retried prep v (resp : HTTPResponse) :
  method prep = upper (verb_name v) ->
  status resp ∉ Retry.status_forcelist default_retry_strategy ->
  (status resp = 413%Z -> has_retry_after resp = false) ->
  Retry.is_retry default_retry_strategy (method prep) (status resp)
    (has_retry_after resp) = false.
Proof.
  intros Hm Hs H413. unfold Retry.is_retry.
  rewrite <- strategy_after_nil, (helper_retryable [] v prep Hm).
  rewrite strategy_after_nil. cbn [negb].
  rewrite (bool_decide_eq_false_2 _ Hs).
  destruct (bool_decide (status resp ∈ Retry.RETRY_AFTER_STATUS_CODES))
    eqn:Hc; [|now rewrite andb_false_r].
  apply bool_decide_eq_true in Hc. unfold Retry.RETRY_AFTER_STATUS_CODES in Hc.
  rewrite !elem_of_cons, elem_of_nil in Hc.
  destruct Hc as [Hc | [Hc | [Hc | []]]].
  - rewrite (H413 Hc). now rewrite andb_false_r.
  - exfalso. apply Hs. rewrite Hc. cbn. rewrite !elem_of_cons. tauto.
  - exfalso. apply Hs. rewrite Hc. cbn. rewrite !elem_of_cons. tauto.
Qed.

Lemma sleep_returns (retries : Retry.t) (response : option HTTPResponse)
    (w : World) :
  exists v w',
    sleep retries response w = (Return v, w') /\ sent w' = sent w
    /\ forall e, v = inr e -> forall err, e <> UReraised err.
Proof.
  assert (Hb : exists w',
             (_sleep_backoff retries ;;; ret (inl tt : unit + urlopen_error)) w
             = (Return (inl tt), w') /\ sent w' = sent w).
  { unfold bind, _sleep_backoff.
    destruct (Qle_bool _ _); eexists; split; reflexivity. }
  unfold sleep.
  destruct response as [r|].
  2:{ destruct Hb as (w' & -> & Hs). exists (inl tt), w'.
      repeat split; [exact Hs|discriminate]. }
  destruct (Retry.respect_retry_after_header retries).
  2:{ destruct Hb as (w' & -> & Hs). exists (inl tt), w'.
      repeat split; [exact Hs|discriminate]. }
  unfold bind at 1, sleep_for_retry, get_retry_after.
  destruct (CaseInsensitiveDict.get _ _) as [ra|].
  2:{ unfold ret at 1. destruct Hb as (w' & -> & Hs). exists (inl tt), w'.
      repeat split; [exact Hs|discriminate]. }
  unfold parse_retry_after.
  destruct (is_delay_seconds ra).
  - destruct (Qeq_bool _ _).
    + unfold ret at 1. destruct Hb as (w' & -> & Hs). exists (inl tt), w'.
      repeat split; [exact Hs|discriminate].
    + eexists (inl tt), _. repeat split. discriminate.
  - destruct (seconds_until ra) as [q|].
    + destruct (Qeq_bool _ _).
      * unfold ret at 1. destruct Hb as (w' & -> & Hs). exists (inl tt), w'.
        repeat split; [exact Hs|discriminate].
      * eexists (inl tt), _. repeat split. discriminate.
    + eexists (inr _), _. repeat split. intros e [= <-]. discriminate.
Qed.

Lemma urlopen_forcelist_fails (depth : nat) prep
    (hist : list RequestHistory) (t : value) (w : World) :
  (3 <= depth + length hist)%nat -> (length hist <= 3)%nat ->
  (forall n, exists resp,
      wire n prep t = inl resp
      /\ status resp ∈ Retry.status_forcelist default_retry_strategy) ->
  Retry._is_method_retryable (strategy_after hist) (method prep) = true ->
  exists e w',
    urlopen depth prep (strategy_after hist) t w = (Return (inr e), w')
    /\ forall err, e <> UReraised err.
Proof.
  intros Hd Hl Hwire Hm. revert hist w Hd Hl Hm.
  induction depth as [|depth IH]; intros hist w Hd Hl Hm;
    destruct (Hwire (length (sent w))) as (resp & Hw & Hs);
    cbn [urlopen]; unfold urlopen_attempt at 1;
    unfold bind at 1, round_trip; rewrite Hw;
    unfold Retry.is_retry; rewrite Hm; cbn [negb];
    change (Retry.status_forcelist (strategy_after hist))
      with (Retry.status_forcelist default_retry_strategy);
    rewrite (bool_decide_eq_true_2 _ Hs);
    rewrite (increment_after hist prep (inl resp) Hm Hs).
  - replace (length hist <? 3)%nat with false
      by (symmetry; apply Nat.ltb_ge; lia).
    eexists _, _. split; [reflexivity|discriminate].
  - destruct (Nat.ltb_spec (length hist) 3) as [Hlt|Hge].
    + unfold bind at 1.
      match goal with
      | |- context [sleep ?r ?o ?w0] =>
          destruct (sleep_returns r o w0) as (x & w2 & -> & Hsent & Hx)
      end.
      destruct x as [[]|e].
      * apply IH.
        -- rewrite length_app. cbn. lia.
        -- rewrite length_app. cbn. lia.
        -- exact Hm.
      * eexists _, _. split; [reflexivity|]. now apply Hx.
    + eexists _, _. split; [reflexivity|discriminate].
Qed.


End Outcomes.

(** ** The nesting of [urlopen] stays within the retry budget *)

Lemma foldr_min_le (n : Z) (ns : list Z) : (foldr Z.min n ns <= n)%Z.
Proof. induction ns as [|m ns IH]; cbn; lia. Qed.

Lemma not_exhausted_total (r : Retry.t) :
  Retry.is_exhausted r = false -> (0 <= Retry.total r)%Z.
Proof.
  unfold Retry.is_exhausted. cbn [omap list_omap].
  destruct (Z.eqb_spec (Retry.total r) 0) as [->|Hne]; [lia|].
  cbn. intros Hmin. apply Z.ltb_ge in Hmin.
  pose proof (foldr_min_le (Retry.total r)
                (omap (fun c => match c with
                                | CInt n => if (n =? 0)%Z then None else Some n
                                | _ => None
                                end)
                   [Retry.connect r; Retry.read r; Retry.redirect r;
                    Retry.status_count r; Retry.other r])).
  cbn [omap list_omap] in *. lia.
Qed.

Lemma increment_total (r r' : Retry.t) (m u : string)
    (response : option HTTPResponse) (error : option wire_error) :
  Retry.increment r m u response error = Retry.Incremented r' ->
  Retry.total r' = (Retry.total r - 1)%Z /\ (0 <= Retry.total r')%Z.
Proof.
  unfold Retry.increment.
  repeat match goal with
         | |- context [if Retry.is_exhausted ?x then _ else _] =>
             destruct (Retry.is_exhausted x) eqn:?
         | |- context [match ?x with _ => _ end] => destruct x
         end; intros [= <-];
    (split; [reflexivity|now apply not_exhausted_total]).
Qed.

Section Depth.
Context `{Environment}.

Lemma sleep_never_raises (retries : Retry.t)
    (response : option HTTPResponse) (w : World) :
  exists v w', sleep retries response w = (Return v, w').
Proof.
  destruct (sleep_returns retries response w) as (v & w' & Hs & _).
  now exists v, w'.
Qed.

(** Started one deeper than the retries left, [urlopen] never runs out of
    depth: it returns, with a response or with one of its own errors. *)
Lemma urlopen_depth_enough (depth : nat) (request : PreparedRequest)
    (retries : Retry.t) (t : value) (w : World) :
  (Z.to_nat (Retry.total retries) < depth)%nat ->
  exists res w', urlopen depth request retries t w = (Return res, w').
Proof.
  revert retries w.
  induction depth as [|depth IH]; intros retries w Hd; [lia|].
  cbn [urlopen]. unfold urlopen_attempt at 1. unfold bind at 1, round_trip.
  assert (Hagain : forall retries' response w1 m u resp err,
    Retry.increment retries m u resp err = Retry.Incremented retries' ->
    exists res w',
      (paused <- sleep retries' response ;;
       match paused with
       | inr e' => ret (inr e')
       | inl _ => urlopen depth request retries' t
       end) w1 = (Return res, w')).
  { intros retries' response w1 m u resp err Hinc.
    apply increment_total in Hinc as [Ht Hpos].
    unfold bind.
    destruct (sleep_never_raises retries' response w1) as (v & w2 & ->).
    destruct v as [[]|e]; [|now eexists _, _].
    apply IH. lia. }
  destruct (wire _ _ _) as [response|e].
  - destruct (Retry.is_retry _ _ _ _); [|now eexists _, _].
    destruct (Retry.increment _ _ _ _ _) as [r'|e'|u0 reason] eqn:Hinc.
    + now apply (Hagain _ _ _ _ _ _ _ Hinc).
    + now eexists _, _.
    + destruct (Retry.raise_on_status retries); now eexists _, _.
  - destruct (Retry.increment _ _ _ _ _) as [r'|e'|u0 reason] eqn:Hinc.
    + now apply (Hagain _ _ _ _ _ _ _ Hinc).
    + now eexists _, _.
    + now eexists _, _.
Qed.
End Depth.

(** ** What the helper's transport can raise *)

Lemma retried_status (s : Z) :
  (s ∈ Retry.status_forcelist default_retry_strategy)
  \/ (s ∈ Retry.RETRY_AFTER_STATUS_CODES) ->
  (s ∉ REDIRECT_STATUSES) /\ s <> 0%Z.
Proof.
  unfold Retry.RETRY_AFTER_STATUS_CODES, REDIRECT_STATUSES.
  cbn [Retry.status_forcelist default_retry_strategy].
  rewrite !elem_of_cons, !elem_of_nil.
  intros Hs. split; [intros Hr|intros ->]; intuition (subst; discriminate).
Qed.

Lemma increment_after_retried (hist : list RequestHistory)
    (request : PreparedRequest) (resp : HTTPResponse) :
  status resp ∉ REDIRECT_STATUSES -> status resp <> 0%Z ->
  Retry.increment (strategy_after hist) (method request) (url request)
    (Some resp) None
  = if (length hist <? 3)%nat
    then Retry.Incremented
           (strategy_after (hist ++ [failure_entry request (inl resp)]))
    else Retry.MaxRetry (url request) (failure_reason (inl resp)).
Proof.
  intros Hred Hnz. unfold Retry.increment, get_redirect_location.
  rewrite (bool_decide_eq_false_2 _ Hred).
  rewrite (proj2 (Z.eqb_neq _ _) Hnz).
  change (Retry.history (strategy_after hist)) with hist.
  rewrite strategy_after_step, strategy_after_exhausted.
  rewrite length_app. cbn [length].
  destruct (Nat.ltb_spec (length hist) 3), (Nat.ltb_spec 3 (length hist + 1));
    try reflexivity; lia.
Qed.

Lemma is_retry_status (hist : list RequestHistory) (m : string) (s : Z)
    (has : bool) :
  Retry.is_retry (strategy_after hist) m s has = true ->
  (s ∉ REDIRECT_STATUSES) /\ s <> 0%Z.
Proof.
  intros Hretry. apply retried_status. revert Hretry.
  unfold Retry.is_retry.
  destruct (Retry._is_method_retryable _ _); [|discriminate]. cbn [negb].
  change (Retry.status_forcelist (strategy_after hist))
    with (Retry.status_forcelist default_retry_strategy).
  destruct (bool_decide (_ ∈ Retry.status_forcelist _)) eqn:Hf;
    [left; now apply bool_decide_eq_true in Hf|].
  rewrite !andb_true_iff. intros [_ Hc]. right.
  now apply bool_decide_eq_true in Hc.
Qed.

Section Transport.
Context `{Environment}.

Lemma helper_urlopen_errors (depth : nat) (request : PreparedRequest)
    (hist : list RequestHistory) (t : value) (w : World) :
  (3 < depth + length hist)%nat ->
  Retry._is_method_retryable (strategy_after hist) (method request) = true ->
  exists res w',
    urlopen depth request (strategy_after hist) t w = (Return res, w')
    /\ forall e, res = inr e -> forall err, e <> UReraised err.
Proof.
  revert hist w.
  induction depth as [|depth IH]; intros hist w Hd Hm.
  - assert (Hlt : (length hist <? 3)%nat = false)
      by (apply Nat.ltb_ge; lia).
    cbn [urlopen]. unfold urlopen_attempt at 1.
    unfold bind at 1, round_trip.
    destruct (wire _ _ _) as [response|e0].
    + destruct (Retry.is_retry _ _ _ _) eqn:Hretry.
      2:{ eexists _, _. split; [reflexivity|discriminate]. }
      destruct (is_retry_status hist (method request) _ _ Hretry)
        as [Hred Hnz].
      rewrite (increment_after_retried hist request response Hred Hnz), Hlt.
      eexists _, _. split; [reflexivity|]. intros e [= <-]. discriminate.
    + rewrite (increment_after hist request (inr e0) Hm I), Hlt.
      eexists _, _. split; [reflexivity|]. intros e [= <-]. discriminate.
  - cbn [urlopen]. unfold urlopen_attempt at 1.
    unfold bind at 1, round_trip.
    assert (Hnext : forall response w1 x,
      exists res w',
        (paused <- sleep
                     (strategy_after (hist ++ [failure_entry request x]))
                     response ;;
         match paused with
         | inr e' => ret (inr e')
         | inl _ =>
             urlopen depth request
               (strategy_after (hist ++ [failure_entry request x])) t
         end) w1 = (Return res, w')
        /\ forall e, res = inr e -> forall err, e <> UReraised err).
    { intros response w1 x. unfold bind.
      destruct (sleep_returns
                  (strategy_after (hist ++ [failure_entry request x]))
                  response w1) as (v & w2 & -> & _ & Hv).
      destruct v as [[]|e].
      - apply IH; [rewrite length_app; cbn; lia|exact Hm].
      - eexists _, _. split; [reflexivity|].
        intros e' [= <-]. now apply Hv. }
    destruct (wire _ _ _) as [response|e0].
    + destruct (Retry.is_retry _ _ _ _) eqn:Hretry.
      2:{ eexists _, _. split; [reflexivity|discriminate]. }
      destruct (is_retry_status hist (method request) _ _ Hretry)
        as [Hred Hnz].
      rewrite (increment_after_retried hist request response Hred Hnz).
      destruct (length hist <? 3)%nat.
      * apply (Hnext (Some response) _ (inl response)).
      * eexists _, _. split; [reflexivity|]. intros e [= <-]. discriminate.
    + rewrite (increment_after hist request (inr e0) Hm I).
      destruct (length hist <? 3)%nat.
      * apply (Hnext None _ (inr e0)).
      * eexists _, _. split; [reflexivity|]. intros e [= <-]. discriminate.
Qed.

(** Whatever the wire does, the adapter the helper mounts either returns a
    response or raises an exception of [requests] that [http_exceptions]
    absorbs. *)
Lemma helper_adapter_raises_absorbed (request : PreparedRequest) (v : verb)
    (kwargs : gmap string value) (w : World) :
  method request = upper (verb_name v) ->
  match (adapter_send (TimeoutAdapter helper_adapter) request kwargs w).1 with
  | Return _ => True
  | Raise e => transport_or_status_failure e = true
  end.
Proof.
  intros Hm. unfold adapter_send, TimeoutHTTPAdapter.send, HTTPAdapter.send.
  cbn [TimeoutHTTPAdapter.super helper_adapter HTTPAdapter.max_retries].
  change (S (Z.to_nat (Retry.total default_retry_strategy))) with 4%nat.
  unfold bind.
  match goal with
  | |- context [urlopen 4 request default_retry_strategy ?t w] =>
      destruct (helper_urlopen_errors 4 request [] t w)
        as (res & w' & Hu & Hres);
        [cbn; lia | now apply (helper_retryable [] v) |];
        rewrite strategy_after_nil in Hu; rewrite Hu
  end.
  destruct res as [resp|e]; [exact I|].
  cbn [fst raise]. apply translate_caught. now apply Hres.
Qed.
End Transport.


(** ** Construction, timeouts, URLs and authentication *)

(** C5. A helper constructed from a base URL and an authenticator mounts,
    for [https://] and for [http://] URLs alike, an adapter that holds
    exactly the default retry strategy: 3 retries in total, at most 16
    redirects, backoff factor 0.3, forced retry on 429, 500, 502, 503 and
    504, every verb of the helper (and TRACE) retryable, and
    [Retry-After] honoured. *)
Theorem helper_mounts_default_retry_policy
    `{Environment} {A : Type} `{AuthBase A}
    (baseurl : option string) (auth : option A) :
  exists self,
    ApiHelper__init__ baseurl auth = Return self
    /\ (forall u, startswith (lower u) "https://" = true
                  \/ startswith (lower u) "http://" = true ->
          exists a, get_adapter (http self) u = Return (TimeoutAdapter a)
                    /\ adapter_max_retries (TimeoutAdapter a)
                       = default_retry_strategy)
    /\ Retry.total default_retry_strategy = 3%Z
    /\ Retry.redirect default_retry_strategy = CInt 16
    /\ (Retry.backoff_factor default_retry_strategy == 3 / 10)%Q
    /\ Retry.status_forcelist default_retry_strategy
       = [429; 500; 502; 503; 504]%Z
    /\ Retry.allowed_methods default_retry_strategy
       = ["HEAD"; "GET"; "PUT"; "POST"; "PATCH"; "DELETE"; "OPTIONS"; "TRACE"]
    /\ (forall v, Retry._is_method_retryable default_retry_strategy
                    (verb_name v) = true)
    /\ Retry.respect_retry_after_header default_retry_strategy = true.
Proof.
  exists (mk_ApiHelper (helper_session baseurl auth)).
  split; [apply ApiHelper__init___eq|]. split.
  - intros u Hu. exists helper_adapter. cbn [http].
    rewrite helper_get_adapter. split; [|reflexivity].
    destruct Hu as [-> | ->]; [reflexivity|].
    now rewrite orb_true_r.
  - repeat split. intros v. now destruct v.
Qed.

Lemma increment_respect (retries retries' : Retry.t) (m u : string)
    (response : option HTTPResponse) (error : option wire_error) :
  Retry.increment retries m u response error = Retry.Incremented retries' ->
  Retry.respect_retry_after_header retries'
  = Retry.respect_retry_after_header retries.
Proof.
  unfold Retry.increment.
  repeat match goal with
         | |- context [match ?x with _ => _ end] => destruct x
         end; intros [= <-]; reflexivity.
Qed.

(** C6. When a 429 response carries [Retry-After: 5] and the strategy
    honours the header, the retry that follows is made after a sleep of
    exactly 5 seconds: the backoff computed from the history plays no part
    in it. *)
Theorem retry_after_header_sets_delay `{Environment}
    (depth : nat) (request : PreparedRequest) (retries retries' : Retry.t)
    (t : value) (w : World) (resp : HTTPResponse) :
  Retry.respect_retry_after_header retries = true ->
  wire (length (sent w)) request t = inl resp ->
  status resp = 429%Z ->
  CaseInsensitiveDict.get "Retry-After" (raw_headers resp) = Some "5" ->
  Retry.is_retry retries (method request) 429 true = true ->
  Retry.increment retries (method request) (url request) (Some resp) None
  = Retry.Incremented retries' ->
  urlopen (S depth) request retries t w
  = urlopen depth request retries' t
      (mk_World (stdout w) (slept w ++ [5%Q])
         (sent w ++ [on_the_wire request t])).
Proof.
  intros Hrespect Hw Hs Hh Hretry Hinc.
  apply increment_respect in Hinc as Hrespect'.
  cbn [urlopen]. unfold urlopen_attempt at 1.
  unfold bind at 1, round_trip. rewrite Hw, Hh, Hs. cbn [str_truthy].
  rewrite Hretry, Hinc.
  unfold bind at 1, sleep. rewrite Hrespect', Hrespect.
  unfold bind at 1, sleep_for_retry, get_retry_after. rewrite Hh.
  reflexivity.
Qed.

Section Requests.
Context `{Environment}.
Implicit Types (auth : option BearerAuth.t).



End Requests.

(** ** Worked examples *)

Lemma example_request_prepared (script : nat -> HTTPResponse + wire_error) :
  outgoing_request (H := scripted script)
    (http (example_helper (H := scripted script))) "GET" "/v1/users"
    (no_kwargs (H := scripted script))
  = Return example_request.
Proof. vm_compute. reflexivity. Qed.


Lemma forcelist_503 : 503%Z ∈ Retry.status_forcelist default_retry_strategy.
Proof. cbn. rewrite !elem_of_cons. tauto. Defined.





Lemma retry_after_header_sets_delay_witness :
  urlopen (H := throttling_server) 3 example_request
    (strategy_after [busy_attempt]) (VInt 5)
    (mk_World [] [] [on_the_wire example_request (VInt 5)])
  = urlopen (H := throttling_server) 2 example_request
      (strategy_after [busy_attempt; throttled_attempt]) (VInt 5)
      (mk_World [] [5%Q]
         [on_the_wire example_request (VInt 5);
          on_the_wire example_request (VInt 5)])
  /\ Retry.get_backoff_time (strategy_after [busy_attempt; throttled_attempt])
     = 6 # 10.
Proof.
  split; [|reflexivity].
  apply (retry_after_header_sets_delay (H := throttling_server) 2
           example_request (strategy_after [busy_attempt])
           (strategy_after [busy_attempt; throttled_attempt]) (VInt 5)
           (mk_World [] [] [on_the_wire example_request (VInt 5)])
           (response_with 429 [("Retry-After", "5")] "")).
  - reflexivity.
  - reflexivity.
  - reflexivity.
  - vm_compute. reflexivity.
  - vm_compute. reflexivity.
  - vm_compute. reflexivity.
Defined.

(** The same scenario from the caller's side: one sleep, of 5 seconds. *)
Example throttled_call_waits_five_seconds :
  call (H := throttling_server) GET
    (example_helper (H := throttling_server), "/v1/users",
     no_kwargs (H := throttling_server)) fresh_world
  = (Return (Value ok_response),
     mk_World [] [5%Q] (replicate 3 (on_the_wire example_request (VInt 5)))).
Proof. vm_compute. reflexivity. Qed.




(** * Further properties of the code

    What the code does besides: the rest of the wrapper, the calls that
    never reach the wire, the bounds of the retry loop, the log lines,
    the constructor of the adapter, the context manager, and the pieces of
    [requests], [urllib3] and [urllib.parse] underneath. *)

(** ** The wrapper [http_exceptions] *)

(** X1. An exception that is no [RequestException], no
    [RequestsWarning] and no [MaxRetryError] of urllib3 (a [ValueError],
    a [TypeError], a [KeyboardInterrupt]) goes through the wrapper as it
    is: it reaches the caller, and nothing is printed. *)
Theorem http_exceptions_reraises_other_exceptions {Args A}
    (func : Args -> M A) (args : Args) (w : World) (e : exn) (w' : World) :
  func args w = (Raise e, w') ->
  isinstance e RequestException = false ->
  isinstance e RequestsWarning = false ->
  isinstance e MaxRetryError = false ->
  http_exceptions func args w = (Raise e, w').
Proof.
  intros Hf Hr Hw Hm. unfold http_exceptions. rewrite Hf, Hr, Hw, Hm.
  destruct e as [c s]. destruct c; try discriminate; reflexivity.
Qed.

Lemma http_exceptions_reraises_other_exceptions_witness :
  http_exceptions (fun _ : unit => raise (A := unit) (mk_exn ValueError "bad"))
    tt fresh_world
  = (Raise (mk_exn ValueError "bad"), fresh_world).
Proof.
  apply http_exceptions_reraises_other_exceptions; reflexivity.
Defined.

(** X2. The handlers are tried in the order they are written, so an
    exception that is both a connection error and a timeout (the
    [ConnectTimeout] of requests) is reported by the handler of
    [ConnectionError]: the line starts with "Error Connecting: ", not with
    "Timeout Error: ". *)
Theorem connect_timeout_is_logged_as_connection_error {Args A}
    (func : Args -> M A) (args : Args) (w : World) (e : exn) (w' : World) :
  func args w = (Raise e, w') ->
  isinstance e ConnectionError = true ->
  isinstance e Timeout = true ->
  http_exceptions func args w
  = (Return PyFalse, logged ("Error Connecting: " +:+ exn_str e) w').
Proof.
  intros Hf Hc Ht. unfold http_exceptions. rewrite Hf, Hc.
  destruct e as [c s]. destruct c; try discriminate; reflexivity.
Qed.

Lemma connect_timeout_is_logged_as_connection_error_witness :
  http_exceptions
    (fun _ : unit => raise (A := unit) (mk_exn ConnectTimeout "timed out"))
    tt fresh_world
  = (Return PyFalse, mk_World ["Error Connecting: timed out"] [] []).
Proof.
  apply (connect_timeout_is_logged_as_connection_error
           (fun _ : unit =>
              raise (A := unit) (mk_exn ConnectTimeout "timed out"))
           tt fresh_world (mk_exn ConnectTimeout "timed out") fresh_world);
    reflexivity.
Defined.

(** X3. The wrapper never sleeps and never sends anything itself, and it
    prints only when it absorbs an exception: when it returns [False],
    the wrapped call has raised and exactly one line has been printed,
    the prefix of the handler followed by the text of the exception; when
    it hands on a value or re-raises, it prints nothing. *)
Theorem http_exceptions_prints_only_on_failure {Args A}
    (func : Args -> M A) (args : Args) (w : World) :
  slept (http_exceptions func args w).2 = slept (func args w).2
  /\ sent (http_exceptions func args w).2 = sent (func args w).2
  /\ match (http_exceptions func args w).1 with
     | Return PyFalse =>
         exists e,
           (func args w).1 = Raise e
           /\ stdout (http_exceptions func args w).2
              = stdout (func args w).2 ++ [log_prefix e +:+ exn_str e]
     | _ => stdout (http_exceptions func args w).2 = stdout (func args w).2
     end.
Proof.
  unfold http_exceptions.
  destruct (func args w) as [[a|e] w1]; [now cbn|].
  assert (Hdone : forall line : string,
             line = log_prefix e +:+ exn_str e ->
             slept (logged line w1) = slept w1
             /\ sent (logged line w1) = sent w1
             /\ exists e0, Raise (A := A) e = Raise e0
                  /\ stdout (logged line w1)
                     = stdout w1 ++ [log_prefix e0 +:+ exn_str e0]).
  { intros line ->. repeat split. exists e. split; reflexivity. }
  unfold log_prefix in Hdone.
  destruct (isinstance e HTTPError); [now apply Hdone|].
  destruct (isinstance e ConnectionError); [now apply Hdone|].
  destruct (isinstance e Timeout); [now apply Hdone|].
  destruct (isinstance e RequestException); [now apply Hdone|].
  destruct (isinstance e RequestsWarning); [now apply Hdone|].
  destruct (isinstance e MaxRetryError); [now apply Hdone|].
  now cbn.
Qed.

Lemma http_exceptions_effects {Args A} (func : Args -> M A) (args : Args)
    (w : World) :
  slept (http_exceptions func args w).2 = slept (func args w).2
  /\ sent (http_exceptions func args w).2 = sent (func args w).2.
Proof.
  unfold http_exceptions.
  destruct (func args w) as [[a|e] w1]; [now cbn|].
  repeat (match goal with
          | |- context [if isinstance e ?c then _ else _] =>
              destruct (isinstance e c)
          end; [now cbn|]).
  now cbn.
Qed.

Lemma http_exceptions_value {Args A} (func : Args -> M A) (args : Args)
    (w : World) (a : A) (w' : World) :
  http_exceptions func args w = (Return (Value a), w') ->
  func args w = (Return a, w').
Proof.
  unfold http_exceptions.
  destruct (func args w) as [[a0|e] w1]; [now intros [= <- <-]|].
  repeat (match goal with
          | |- context [if isinstance e ?c then _ else _] =>
              destruct (isinstance e c)
          end; [discriminate|]).
  discriminate.
Qed.

Lemma raise_for_status_world (r : Response) (w : World) :
  (raise_for_status r w).2 = w.
Proof. unfold raise_for_status. now destruct (str_truthy _). Qed.

(** ** Calls that end before anything is sent *)

Lemma urlsplit_raises (ok1 ok2 : string -> bool) (u s : string) (e : exn) :
  urllib_parse.urlsplit ok1 ok2 u s = Raise e -> exn_class e = ValueError.
Proof.
  unfold urllib_parse.urlsplit.
  repeat (case_match; simplify_eq; try discriminate);
    try (intros [= <-]; reflexivity).
Qed.

Lemma urlparse_raises (ok1 ok2 : string -> bool) (u s : string) (e : exn) :
  urllib_parse.urlparse ok1 ok2 u s = Raise e -> exn_class e = ValueError.
Proof.
  unfold urllib_parse.urlparse.
  destruct (urllib_parse.urlsplit ok1 ok2 u s) as [[]|e'] eqn:Hs.
  - destruct (_ && _); [destruct (urllib_parse._splitparams _)|]; discriminate.
  - intros [= <-]. now apply urlsplit_raises in Hs.
Qed.

Lemma urljoin_raises (ok1 ok2 : string -> bool) (b u : string) (e : exn) :
  urllib_parse.urljoin ok1 ok2 b u = Raise e -> exn_class e = ValueError.
Proof.
  unfold urllib_parse.urljoin.
  destruct (negb (str_truthy b)); [discriminate|].
  destruct (negb (str_truthy u)); [discriminate|].
  destruct (urllib_parse.urlparse ok1 ok2 b "") as [pb|e1] eqn:Hb;
    [|intros [= <-]; now apply urlparse_raises in Hb].
  destruct (urllib_parse.urlparse ok1 ok2 u _) as [pu|e1] eqn:Hu;
    [|intros [= <-]; now apply urlparse_raises in Hu].
  repeat (case_match; try discriminate).
Qed.

Section Unsent.
Context `{Environment}.
Implicit Types (auth : option BearerAuth.t) (prep : PreparedRequest).

(** X4. On a helper with a base URL, the join of the call's URL to the
    base URL happens before anything the wrapper guards: when [urljoin]
    rejects the URL (an unbalanced bracket in the host, say), its
    [ValueError] reaches the caller of the verb method: nothing is
    printed, nothing is sent, and no [False] is returned. *)
Theorem base_url_join_error_reaches_caller (b : string) auth self v u kw w e :
  str_truthy b = true ->
  ApiHelper__init__ (Some b) auth = Return self ->
  urllib_parse.urljoin bracketed_netloc_ok nfkc_netloc_ok b u = Raise e ->
  call v (self, u, kw) w = (Raise e, w) /\ exn_class e = ValueError.
Proof.
  intros Hb. rewrite ApiHelper__init___eq. intros [= <-] Hj.
  pose proof (urljoin_raises _ _ _ _ _ Hj) as He. split; [|exact He].
  assert (Hs : session_call v
                 (mk_ApiHelper (helper_session (Some b) auth), u, kw) w
               = (Raise e, w)).
  { rewrite session_call_eq. unfold outgoing_request, create_url.
    cbn [class_ base_url helper_session default from_option id]. rewrite Hb.
    cbn [default from_option id]. now rewrite Hj. }
  rewrite call_eq. unfold http_exceptions. rewrite Hs.
  destruct e as [c s]. cbn in He. now subst c.
Qed.

(** X5. A request whose URL is neither [http://] nor [https://] finds no
    adapter on the helper's session: the call sends nothing, prints one
    line that starts with "Generic Request Exception: " and returns
    [False]. *)
Theorem unsupported_scheme_is_not_sent baseurl auth self v u kw prep w :
  ApiHelper__init__ baseurl auth = Return self ->
  outgoing_request (http self) (verb_name v) u kw = Return prep ->
  is_http_url (url prep) = false ->
  exists msg,
    call v (self, u, kw) w
    = (Return PyFalse, logged ("Generic Request Exception: " +:+ msg) w).
Proof.
  rewrite ApiHelper__init___eq. intros [= <-]. cbn [http].
  intros Hprep Hurl.
  exists ("No connection adapters were found for " +:+ url prep).
  rewrite call_eq.
  apply (http_exceptions_absorbs _ _ _
           (mk_exn InvalidSchema
              ("No connection adapters were found for " +:+ url prep)));
    [|reflexivity].
  rewrite session_call_eq, Hprep. unfold Session_send.
  rewrite helper_get_adapter. unfold is_http_url in Hurl. rewrite Hurl.
  reflexivity.
Qed.

End Unsent.

Lemma base_url_join_error_reaches_caller_witness :
  call (H := ok_server) GET
    (example_helper (H := ok_server), "//[::1", no_kwargs (H := ok_server))
    fresh_world
  = (Raise (mk_exn ValueError "Invalid IPv6 URL"), fresh_world)
  /\ exn_class (mk_exn ValueError "Invalid IPv6 URL") = ValueError.
Proof.
  apply (base_url_join_error_reaches_caller (H := ok_server)
           example_base_url (Some example_auth)
           (example_helper (H := ok_server)) GET "//[::1"
           (no_kwargs (H := ok_server)) fresh_world).
  - reflexivity.
  - apply ApiHelper__init___eq.
  - vm_compute. reflexivity.
Defined.

Lemma unsupported_scheme_is_not_sent_witness :
  exists msg,
    call (H := ok_server) GET
      (plain_helper (H := ok_server), "ftp://example.com/file",
       no_kwargs (H := ok_server)) fresh_world
    = (Return PyFalse,
       logged ("Generic Request Exception: " +:+ msg) fresh_world).
Proof.
  apply (unsupported_scheme_is_not_sent (H := ok_server)
           (Some "") (Some example_auth) (plain_helper (H := ok_server))
           GET "ftp://example.com/file" (no_kwargs (H := ok_server))
           (bearer_get "ftp://example.com/file") fresh_world).
  - apply ApiHelper__init___eq.
  - vm_compute. reflexivity.
  - reflexivity.
Defined.

(** ** The URL of a call *)

Section Urls.
Context `{Environment}.
Implicit Types (auth : option BearerAuth.t) (prep : PreparedRequest).



End Urls.



(** ** How often a call talks to the server *)

Lemma upper_verb_name (v : verb) : upper (verb_name v) = verb_name v.
Proof. now destruct v. Qed.

Section Bounds.
Context `{Environment}.
Implicit Types (auth : option BearerAuth.t) (prep : PreparedRequest).

Lemma sleep_slept (retries : Retry.t) (response : option HTTPResponse)
    (w : World) :
  (length (slept (sleep retries response w).2) <= length (slept w) + 1)%nat
  /\ sent (sleep retries response w).2 = sent w.
Proof.
  assert (Hb : forall w,
             (length (slept ((_sleep_backoff retries ;;;
                              ret (inl tt : unit + urlopen_error)) w).2)
              <= length (slept w) + 1)%nat
             /\ sent ((_sleep_backoff retries ;;;
                       ret (inl tt : unit + urlopen_error)) w).2 = sent w).
  { clear. intros w. unfold bind, _sleep_backoff.
    destruct (Qle_bool _ _); cbn; rewrite ?length_app; cbn; split;
      (lia || reflexivity). }
  unfold sleep.
  destruct response as [r|]; [|apply Hb].
  destruct (Retry.respect_retry_after_header retries); [|apply Hb].
  unfold bind at 1 3, sleep_for_retry.
  destruct (get_retry_after r) as [[q|]|e]; cbn.
  - destruct (Qeq_bool q 0); cbn; [apply Hb|].
    rewrite length_app. cbn. split; [lia|reflexivity].
  - apply Hb.
  - split; [lia|reflexivity].
Qed.

Lemma urlopen_attempt_bounded
    (again : Retry.t -> M (HTTPResponse + urlopen_error))
    (request : PreparedRequest) (hist : list RequestHistory) (t : value)
    (w : World) :
  Retry._is_method_retryable (strategy_after hist) (method request) = true ->
  (length hist <= 3)%nat ->
  (forall x w2, (length hist < 3)%nat ->
     within_budget (hist ++ [failure_entry request x]) w2
       (again (strategy_after (hist ++ [failure_entry request x])) w2)) ->
  within_budget hist w
    (urlopen_attempt again request (strategy_after hist) t w).
Proof.
  intros Hm Hlen Hagain.
  unfold urlopen_attempt. unfold bind at 1. unfold round_trip.
  set (w1 := mk_World _ _ _).
  assert (Hw1 : length (sent w1) = (length (sent w) + 1)%nat
                /\ slept w1 = slept w)
    by (split; [cbn; rewrite length_app; cbn; lia|reflexivity]).
  destruct Hw1 as [Hs1 Hs2]. clearbody w1.
  assert (Hstop : forall (r : outcome (HTTPResponse + urlopen_error)),
             within_budget hist w (r, w1))
    by (intros r; unfold within_budget; cbn [snd]; rewrite Hs1, Hs2; lia).
  assert (Hnext : forall response x,
             (length hist < 3)%nat ->
             within_budget hist w
               ((paused <- sleep
                   (strategy_after (hist ++ [failure_entry request x]))
                   response ;;
                 match paused with
                 | inr e' => ret (inr e')
                 | inl _ =>
                     again (strategy_after
                              (hist ++ [failure_entry request x]))
                 end) w1)).
  { intros response x Hlt. unfold bind.
    destruct (sleep_slept
                (strategy_after (hist ++ [failure_entry request x]))
                response w1) as [Hsl Hse].
    destruct (sleep _ response w1) as [[[[]|e]|e] w2]; cbn [snd] in Hsl, Hse.
    - destruct (Hagain x w2 Hlt) as [Ha Hb].
      rewrite length_app in Ha, Hb. cbn [length] in Ha, Hb.
      unfold within_budget. rewrite Hse, Hs1 in Ha. rewrite Hs2 in Hsl. lia.
    - unfold within_budget. cbn [snd ret]. rewrite Hse, Hs1.
      rewrite Hs2 in Hsl. lia.
    - unfold within_budget. cbn [snd]. rewrite Hse, Hs1.
      rewrite Hs2 in Hsl. lia. }
  destruct (wire _ _ _) as [response|e0].
  - destruct (Retry.is_retry _ _ _ _) eqn:Hretry; [|apply Hstop].
    destruct (is_retry_status hist (method request) _ _ Hretry)
      as [Hred Hnz].
    rewrite (increment_after_retried hist request response Hred Hnz).
    destruct (Nat.ltb_spec (length hist) 3).
    + now apply (Hnext (Some response) (inl response)).
    + destruct (Retry.raise_on_status _); apply Hstop.
  - rewrite (increment_after hist request (inr e0) Hm I).
    destruct (Nat.ltb_spec (length hist) 3).
    + now apply (Hnext None (inr e0)).
    + apply Hstop.
Qed.

Lemma helper_urlopen_bounded (depth : nat) (request : PreparedRequest)
    (hist : list RequestHistory) (t : value) (w : World) :
  Retry._is_method_retryable (strategy_after hist) (method request) = true ->
  (length hist <= 3)%nat ->
  within_budget hist w (urlopen depth request (strategy_after hist) t w).
Proof.
  revert hist w.
  induction depth as [|depth IH]; intros hist w Hm Hlen; cbn [urlopen];
    apply urlopen_attempt_bounded; try assumption.
  - intros x w2 Hlt. unfold within_budget. cbn [snd raise].
    rewrite length_app. cbn [length]. lia.
  - intros x w2 Hlt. apply IH; [exact Hm|].
    rewrite length_app. cbn [length]. lia.
Qed.

Lemma helper_send_urlopen_world baseurl auth prep timeout allow_redirects w :
  is_http_url (url prep) = true ->
  hooks prep = [assert_status_hook] ->
  (Session_send (helper_session baseurl auth) prep timeout allow_redirects w).2
  = (urlopen 4 prep default_retry_strategy (effective_timeout timeout) w).2.
Proof.
  intros Hurl Hh. rewrite (helper_send_eq _ _ _ _ _ _ Hurl Hh).
  destruct (urlopen 4 prep default_retry_strategy _ w) as [[[resp|e]|e] w1];
    try reflexivity.
  cbv zeta.
  pose proof (raise_for_status_world (HTTPAdapter.build_response prep resp) w1)
    as Hr.
  destruct (raise_for_status _ w1) as [[[]|e] w2]; cbn [snd] in Hr; subst w2;
    [|reflexivity].
  destruct allow_redirects; [|reflexivity].
  destruct (get_redirect_target _) as [target|]; [|reflexivity].
  now destruct (str_truthy target).
Qed.

(** X8. Whatever the server and the network do, one call of a verb
    method puts at most four requests on the wire (the first attempt and
    three retries) and sleeps at most three times; the requests that
    following a redirect adds are not counted. *)
Theorem call_attempts_are_bounded baseurl auth self v u kw w :
  ApiHelper__init__ baseurl auth = Return self ->
  (length (sent (call v (self, u, kw) w).2) <= length (sent w) + 4)%nat
  /\ (length (slept (call v (self, u, kw) w).2) <= length (slept w) + 3)%nat.
Proof.
  rewrite ApiHelper__init___eq. intros [= <-].
  rewrite call_eq.
  destruct (http_exceptions_effects
              (session_call v)
              (mk_ApiHelper (helper_session baseurl auth), u, kw) w)
    as [-> ->].
  rewrite session_call_eq.
  destruct (outgoing_request _ _ _ _) as [prep|e] eqn:Hprep;
    [|cbn [snd]; lia].
  destruct (helper_prepared _ _ _ _ _ _ Hprep) as (Hm & Hh & _).
  destruct (is_http_url (url prep)) eqn:Hurl.
  - rewrite (helper_send_urlopen_world _ _ _ _ _ _ Hurl Hh).
    destruct (helper_urlopen_bounded 4 prep []
                (effective_timeout (kw_timeout kw)) w) as [Ha Hb].
    + now apply (helper_retryable [] v).
    + cbn. lia.
    + rewrite strategy_after_nil in Ha, Hb. cbn [length] in Ha, Hb. lia.
  - unfold Session_send. rewrite helper_get_adapter.
    unfold is_http_url in Hurl. rewrite Hurl. cbn. lia.
Qed.


End Bounds.

Lemma call_attempts_are_bounded_witness :
  ((length (sent (call (H := busy_server) GET
                    (example_helper (H := busy_server), "/v1/users",
                     no_kwargs (H := busy_server)) fresh_world).2)
    <= length (sent fresh_world) + 4)%nat
   /\ (length (slept (call (H := busy_server) GET
                        (example_helper (H := busy_server), "/v1/users",
                         no_kwargs (H := busy_server)) fresh_world).2)
       <= length (slept fresh_world) + 3)%nat)
  /\ length (sent (call (H := busy_server) GET
                     (example_helper (H := busy_server), "/v1/users",
                      no_kwargs (H := busy_server)) fresh_world).2)
     = 4%nat.
Proof.
  split; [|vm_compute; reflexivity].
  apply (call_attempts_are_bounded (H := busy_server)
           (Some example_base_url) (Some example_auth)
           (example_helper (H := busy_server)) GET "/v1/users"
           (no_kwargs (H := busy_server)) fresh_world
           (ApiHelper__init___eq _ _)).
Defined.


(** ** What a call returns *)

Lemma raise_for_status_returns (r : Response) (w : World) (w' : World) :
  raise_for_status r w = (Return tt, w') -> ok r = true.
Proof.
  unfold raise_for_status, ok.
  destruct (bool_decide (400 <= status_code r < 500)%Z) eqn:H4.
  { rewrite truthy_app; [discriminate|]. reflexivity. }
  destruct (bool_decide (500 <= status_code r < 600)%Z) eqn:H5.
  { rewrite truthy_app; [discriminate|]. reflexivity. }
  intros _. apply bool_decide_eq_false in H4, H5.
  apply negb_true_iff, bool_decide_eq_false. lia.
Qed.

Lemma dispatch_hook_status_last (hs : list hook) (r : Response) (w : World)
    (r' : Response) (w' : World) :
  dispatch_hook (hs ++ [assert_status_hook]) r w = (Return r', w') ->
  ok r' = true.
Proof.
  revert r w. induction hs as [|h hs IH]; intros r w; cbn [dispatch_hook app].
  - unfold bind, assert_status_hook, bind.
    destruct (raise_for_status r w) as [[[]|e] w1] eqn:Hr; [|discriminate].
    cbn. intros [= <- <-]. now apply raise_for_status_returns in Hr.
  - unfold bind at 1. destruct (h r w) as [[o|e] w1]; [|discriminate].
    apply IH.
Qed.

Section Returned.
Context `{Environment} {A : Type} `{AuthBase A}.

Lemma prepare_request_hooks (self : Session A) (m u : string)
    (kw : call_kwargs) (prep : PreparedRequest) :
  prepare_request self m u kw = Return prep ->
  exists hs, hooks prep = hs ++ session_hooks self.
Proof.
  unfold prepare_request.
  destruct (prepare_url u _); [|discriminate].
  destruct (negb _); [discriminate|].
  destruct (encode_body _ _) as [[b ct]|]; [|discriminate].
  intros [= <-]. eexists. reflexivity.
Qed.

(** X10. The status hook is the last hook to run, whatever hooks an
    authenticator registers before it: a response that a verb method
    returns never has a 4xx or 5xx status, so it is truthy, and a test of
    the result of a call tells success from failure.  Following
    redirects runs the same hooks on the responses it obtains; that they
    deliver no error response either is the hypothesis on
    [resolve_redirects]. *)
Theorem returned_response_is_ok (baseurl : option string) (auth : option A)
    (self : ApiHelper A) (v : verb) (u : string) (kw : call_kwargs)
    (w : World) (r : Response) (w' : World) :
  (forall r0 p r1, ok r0 = true -> resolve_redirects r0 p = Return r1 ->
                   ok r1 = true) ->
  ApiHelper__init__ baseurl auth = Return self ->
  call v (self, u, kw) w = (Return (Value r), w') ->
  ok r = true /\ truthy ok (Value r) = true.
Proof.
  intros Hred. rewrite ApiHelper__init___eq. intros [= <-].
  rewrite call_eq. intros Hc. apply http_exceptions_value in Hc.
  assert (ok r = true); [|now split].
  revert Hc. unfold session_call. cbn [http].
  rewrite Session_request_eq.
  destruct (outgoing_request _ _ _ _) as [prep|e] eqn:Hprep; [|discriminate].
  assert (Hh : exists hs, hooks prep = hs ++ [assert_status_hook]).
  { revert Hprep. unfold outgoing_request.
    destruct (match class_ _ with
              | SessionClass => _ | BaseUrlSessionClass => _ end);
      [|discriminate].
    intros Hp. now apply prepare_request_hooks in Hp. }
  destruct Hh as [hs Hh].
  unfold Session_send. unfold bind at 1.
  destruct (lift _ w) as [[a|e] w0]; [|discriminate].
  unfold bind at 1.
  destruct (adapter_send a prep _ w0) as [[r0|e] w1]; [|discriminate].
  unfold bind at 1. rewrite Hh.
  destruct (dispatch_hook _ r0 w1) as [[r1|e] w2] eqn:Hd; [|discriminate].
  apply dispatch_hook_status_last in Hd.
  destruct (follows_redirects v); [|now intros [= <- <-]].
  destruct (get_redirect_target r1) as [target|]; [|now intros [= <- <-]].
  destruct (str_truthy target); [|now intros [= <- <-]].
  unfold lift. intros [= Hr <-]. now apply (Hred r1 prep r).
Qed.

End Returned.

Lemma returned_response_is_ok_witness :
  ok ok_response = true /\ truthy ok (Value ok_response) = true.
Proof.
  apply (returned_response_is_ok (H := ok_server)
           (Some example_base_url) (Some example_auth)
           (example_helper (H := ok_server)) GET "/v1/users"
           (no_kwargs (H := ok_server)) fresh_world ok_response
           (mk_World [] [] [on_the_wire example_request (VInt 5)])).
  - intros r0 p r1 Hok [= <-]. exact Hok.
  - apply ApiHelper__init___eq.
  - vm_compute. reflexivity.
Defined.

Section Redirects.
Context `{Environment}.
Implicit Types (auth : option BearerAuth.t) (prep : PreparedRequest).


End Redirects.


(** ** What a failed call prints *)

Section LogLines.
Context `{Environment}.
Implicit Types (auth : option BearerAuth.t) (prep : PreparedRequest).

(** X12. The line printed for a 4xx or 5xx response that is not retried
    (the timeout of the call being valid) is "Http Error: " followed by
    the message of [raise_for_status]: the status, "Client Error" below
    500 and "Server Error" from 500 on, the reason phrase and the URL of
    the request. *)
Theorem error_status_log_line baseurl auth self v u kw prep w resp :
  ApiHelper__init__ baseurl auth = Return self ->
  outgoing_request (http self) (verb_name v) u kw = Return prep ->
  is_http_url (url prep) = true ->
  wire (length (sent w)) prep (effective_timeout (kw_timeout kw))
  = inl resp ->
  valid_timeout (effective_timeout (kw_timeout kw)) ->
  (400 <= status resp < 600)%Z ->
  (status resp ∉ Retry.status_forcelist default_retry_strategy) ->
  (status resp = 413%Z -> has_retry_after resp = false) ->
  call v (self, u, kw) w
  = (Return PyFalse,
     mk_World
       (stdout w
        ++ ["Http Error: " +:+ pretty (status resp)
            +:+ (if bool_decide (status resp < 500)%Z
                 then " Client Error: " else " Server Error: ")
            +:+ reason resp +:+ " for url: " +:+ url prep])
       (slept w)
       (sent w ++ [on_the_wire prep (effective_timeout (kw_timeout kw))])).
Proof.
  rewrite ApiHelper__init___eq. intros [= <-]. cbn [http].
  intros Hprep Hurl Hw _ Hs Hnf H413.
  rewrite (helper_call_eq _ _ _ _ _ _ _ Hprep Hurl).
  destruct (helper_prepared _ _ _ _ _ _ Hprep) as (Hm & Hh & _).
  set (w1 := mk_World (stdout w) (slept w)
               (sent w ++ [on_the_wire prep
                             (effective_timeout (kw_timeout kw))])).
  set (msg := pretty (status resp)
              +:+ (if bool_decide (status resp < 500)%Z
                   then " Client Error: " else " Server Error: ")
              +:+ reason resp +:+ " for url: " +:+ url prep).
  assert (Hraise : raise_for_status (HTTPAdapter.build_response prep resp) w1
                   = (Raise (mk_exn HTTPError msg), w1)).
  { unfold raise_for_status, msg. cbn [HTTPAdapter.build_response status_code
      resp_reason resp_url].
    destruct (decide (status resp < 500)%Z) as [Hlt|Hge].
    - rewrite (bool_decide_eq_true_2 (400 <= _ < 500)%Z) by lia.
      rewrite (bool_decide_eq_true_2 (_ < 500)%Z) by lia.
      rewrite truthy_app; reflexivity.
    - rewrite (bool_decide_eq_false_2 (400 <= _ < 500)%Z) by lia.
      rewrite (bool_decide_eq_true_2 (500 <= _ < 600)%Z) by lia.
      rewrite (bool_decide_eq_false_2 (_ < 500)%Z) by lia.
      rewrite truthy_app; reflexivity. }
  rewrite (http_exceptions_absorbs _ tt w (mk_exn HTTPError msg) w1);
    [reflexivity| |reflexivity].
  rewrite (helper_send_eq _ _ _ _ _ _ Hurl Hh).
  rewrite (urlopen_no_retry _ _ _ _ _ _ Hw)
    by now apply (not_retried prep v).
  cbv zeta. fold w1. rewrite Hraise. reflexivity.
Qed.

(** X13. Whatever happens on the wire, the adapter the helper mounts
    never raises urllib3's [MaxRetryError], a [RequestsWarning], an
    [HTTPError], or a timeout that is not a connection error as well:
    exhausted retries come out as [RetryError] or as a [ConnectionError],
    a read timeout among them.  So what the wrapper absorbs of it is
    printed with "Error Connecting: " or with "Generic Request
    Exception: "; the lines "Timeout Error: " and "HTTP: Max retries
    reached, request failed: " are not printed for it. *)
Theorem helper_transport_failure_classes (request : PreparedRequest)
    (v : verb) (kwargs : gmap string value) (w : World) (e : exn)
    (w' : World) :
  method request = upper (verb_name v) ->
  adapter_send (TimeoutAdapter helper_adapter) request kwargs w
  = (Raise e, w') ->
  isinstance e MaxRetryError = false
  /\ isinstance e RequestsWarning = false
  /\ isinstance e HTTPError = false
  /\ (isinstance e Timeout = true -> isinstance e ConnectionError = true)
  /\ (transport_or_status_failure e = true ->
      log_prefix e = "Error Connecting: "
      \/ log_prefix e = "Generic Request Exception: ").
Proof.
  intros Hm. unfold adapter_send, TimeoutHTTPAdapter.send, HTTPAdapter.send.
  cbn [TimeoutHTTPAdapter.super helper_adapter HTTPAdapter.max_retries].
  change (S (Z.to_nat (Retry.total default_retry_strategy))) with 4%nat.
  unfold bind.
  match goal with
  | |- context [urlopen 4 request default_retry_strategy ?t w] =>
      destruct (helper_urlopen_errors 4 request [] t w)
        as (res & w1 & Hu & Hres);
        [cbn; lia | now apply (helper_retryable [] v) |];
        rewrite strategy_after_nil in Hu; rewrite Hu
  end.
  destruct res as [resp|ue]; [discriminate|].
  cbn [raise]. intros [= <- <-].
  specialize (Hres ue eq_refl).
  destruct ue as [u0 [err|cause]|err|msg]; [| | now destruct (Hres err) |].
  - cbn [HTTPAdapter.translate].
    destruct (err_kind err); cbn; repeat split; auto; discriminate.
  - cbn. repeat split; auto; discriminate.
  - cbn. repeat split; auto; discriminate.
Qed.

End LogLines.

Lemma error_status_log_line_witness :
  call (H := gone_server) GET
    (example_helper (H := gone_server), "/v1/users",
     no_kwargs (H := gone_server)) fresh_world
  = (Return PyFalse,
     mk_World
       ["Http Error: 410 Client Error: Gone for url: "
        +:+ url example_request]
       [] [on_the_wire example_request (VInt 5)]).
Proof.
  apply (error_status_log_line (H := gone_server)
           (Some example_base_url) (Some example_auth)
           (example_helper (H := gone_server)) GET "/v1/users"
           (no_kwargs (H := gone_server)) example_request fresh_world
           {| status := 410; raw_headers := ∅; reason := "Gone";
              data := "" |}).
  - apply ApiHelper__init___eq.
  - apply example_request_prepared.
  - reflexivity.
  - reflexivity.
  - cbn. lia.
  - cbn [status]. lia.
  - intros Hin. apply forcelist_status in Hin. cbn [status] in Hin. lia.
  - discriminate.
Defined.

Lemma helper_transport_failure_classes_witness :
  isinstance retries_exhausted MaxRetryError = false
  /\ isinstance retries_exhausted RequestsWarning = false
  /\ isinstance retries_exhausted HTTPError = false
  /\ (isinstance retries_exhausted Timeout = true ->
      isinstance retries_exhausted ConnectionError = true)
  /\ (transport_or_status_failure retries_exhausted = true ->
      log_prefix retries_exhausted = "Error Connecting: "
      \/ log_prefix retries_exhausted = "Generic Request Exception: ").
Proof.
  apply (helper_transport_failure_classes (H := busy_server)
           example_request GET ∅ fresh_world retries_exhausted
           (mk_World [] [6 # 10; 12 # 10]%Q
              (replicate 4 (on_the_wire example_request (VInt 5))))).
  - reflexivity.
  - vm_compute. reflexivity.
Defined.

(** ** The [Retry-After] header *)

Lemma chars_rev_app (s1 s2 : string) :
  String.list_ascii_of_string (String.rev_app s1 s2)
  = rev (String.list_ascii_of_string s1) ++ String.list_ascii_of_string s2.
Proof.
  revert s2. induction s1 as [|a s1 IH]; intros s2; [reflexivity|].
  cbn [String.rev_app String.list_ascii_of_string rev].
  rewrite IH, <- app_assoc. reflexivity.
Qed.

Lemma elem_of_chars_rev (c : ascii) (s : string) :
  c ∈ String.list_ascii_of_string s ->
  c ∈ String.list_ascii_of_string (String.rev s).
Proof.
  unfold String.rev. rewrite chars_rev_app, app_nil_r.
  rewrite !list_elem_of_In. apply in_rev.
Qed.

Lemma elem_of_chars_lstrip (c : ascii) (s : string) :
  c ∈ String.list_ascii_of_string s -> is_space c = false ->
  c ∈ String.list_ascii_of_string (lstrip s).
Proof.
  intros Hc Hs. induction s as [|a s IH]; [exact Hc|].
  cbn [lstrip]. destruct (is_space a) eqn:Ha; [|exact Hc].
  apply IH. cbn [String.list_ascii_of_string] in Hc.
  apply elem_of_cons in Hc as [->|Hc]; [congruence|exact Hc].
Qed.

Lemma letter_is_no_space_or_digit (c : ascii) :
  urllib_parse.is_alpha c = true -> is_space c = false /\ is_digit c = false.
Proof.
  destruct c as [[] [] [] [] [] [] [] []]; try discriminate; intros _;
    split; reflexivity.
Qed.

Lemma letter_is_no_delay_seconds (c : ascii) (v : string) :
  c ∈ String.list_ascii_of_string v -> urllib_parse.is_alpha c = true ->
  is_delay_seconds v = false.
Proof.
  intros Hc Ha. apply letter_is_no_space_or_digit in Ha as [Hs Hd].
  unfold is_delay_seconds.
  assert (Hin : c ∈ String.list_ascii_of_string (strip v)).
  { unfold strip. apply elem_of_chars_rev, elem_of_chars_lstrip; [|exact Hs].
    apply elem_of_chars_rev, elem_of_chars_lstrip; [exact Hc|exact Hs]. }
  apply andb_false_iff. right.
  apply not_true_iff_false. intros Hall.
  rewrite forallb_forall in Hall.
  apply list_elem_of_In, Hall in Hin. congruence.
Qed.

Lemma int_of_digits_nonneg (s : string) : (0 <= int_of_digits s)%Z.
Proof.
  unfold int_of_digits.
  assert (Hacc : forall l acc, (0 <= acc)%Z ->
            (0 <= fold_left
                    (fun acc c => (10 * acc + Z.of_nat (nat_of_ascii c - 48))%Z)
                    l acc)%Z).
  { induction l as [|a l IH]; intros acc Hacc; [exact Hacc|].
    cbn [fold_left]. apply IH. lia. }
  now apply Hacc.
Qed.

Section RetryAfter.
Context `{Environment}.
Implicit Types (auth : option BearerAuth.t) (prep : PreparedRequest).

(** X14. A retryable status (429, 500, 502, 503, 504) whose
    [Retry-After] header contains a letter and is no HTTP date ends the
    call at once: urllib3 rejects the header, no retry is made and nothing
    is slept; the call (its timeout being valid) prints "Generic Request
    Exception: Invalid Retry-After header: " with the value and returns
    [False]. *)
Theorem malformed_retry_after_fails_the_call baseurl auth self v u kw prep w
    resp (value : string) (c : ascii) :
  ApiHelper__init__ baseurl auth = Return self ->
  outgoing_request (http self) (verb_name v) u kw = Return prep ->
  is_http_url (url prep) = true ->
  wire (length (sent w)) prep (effective_timeout (kw_timeout kw))
  = inl resp ->
  valid_timeout (effective_timeout (kw_timeout kw)) ->
  status resp ∈ Retry.status_forcelist default_retry_strategy ->
  CaseInsensitiveDict.get "Retry-After" (raw_headers resp) = Some value ->
  c ∈ String.list_ascii_of_string value ->
  urllib_parse.is_alpha c = true ->
  seconds_until value = None ->
  call v (self, u, kw) w
  = (Return PyFalse,
     mk_World
       (stdout w
        ++ ["Generic Request Exception: Invalid Retry-After header: "
            +:+ value])
       (slept w)
       (sent w ++ [on_the_wire prep (effective_timeout (kw_timeout kw))])).
Proof.
  rewrite ApiHelper__init___eq. intros [= <-]. cbn [http].
  intros Hprep Hurl Hw _ Hs Hget Hc Ha Hdate.
  rewrite (helper_call_eq _ _ _ _ _ _ _ Hprep Hurl).
  destruct (helper_prepared _ _ _ _ _ _ Hprep) as (Hm & Hh & _).
  set (t := effective_timeout (kw_timeout kw)) in *.
  set (w1 := mk_World (stdout w) (slept w) (sent w ++ [on_the_wire prep t])).
  set (msg := "Invalid Retry-After header: " +:+ value).
  rewrite (http_exceptions_absorbs _ tt w (mk_exn InvalidHeader msg) w1);
    [reflexivity| |reflexivity].
  rewrite (helper_send_eq _ _ _ _ _ _ Hurl Hh). fold t.
  assert (Hu : urlopen 4 prep default_retry_strategy t w
               = (Return (inr (UInvalidHeader msg)), w1)).
  { cbn [urlopen]. unfold urlopen_attempt at 1.
    unfold bind at 1, round_trip. rewrite Hw.
    assert (Hretry : forall has,
               Retry.is_retry default_retry_strategy (method prep)
                 (status resp) has = true).
    { intros has. unfold Retry.is_retry.
      rewrite <- strategy_after_nil.
      rewrite (helper_retryable [] v prep Hm). cbn [negb].
      rewrite strategy_after_nil.
      now rewrite (bool_decide_eq_true_2 _ Hs). }
    rewrite Hretry.
    rewrite <- strategy_after_nil.
    rewrite (increment_after [] prep (inl resp)
               (helper_retryable [] v prep Hm) Hs).
    cbn [length Nat.ltb Nat.leb app].
    unfold bind at 1, sleep.
    change (Retry.respect_retry_after_header (strategy_after _)) with true.
    cbv iota.
    unfold bind at 1, sleep_for_retry, get_retry_after. rewrite Hget.
    unfold parse_retry_after.
    rewrite (letter_is_no_delay_seconds c value Hc Ha), Hdate.
    reflexivity. }
  rewrite Hu. reflexivity.
Qed.


End RetryAfter.

Lemma malformed_retry_after_fails_the_call_witness :
  call (H := vague_server) GET
    (example_helper (H := vague_server), "/v1/users",
     no_kwargs (H := vague_server)) fresh_world
  = (Return PyFalse,
     mk_World
       ["Generic Request Exception: Invalid Retry-After header: soon"]
       [] [on_the_wire example_request (VInt 5)]).
Proof.
  apply (malformed_retry_after_fails_the_call (H := vague_server)
           (Some example_base_url) (Some example_auth)
           (example_helper (H := vague_server)) GET "/v1/users"
           (no_kwargs (H := vague_server)) example_request fresh_world
           (response_with 503 [("Retry-After", "soon")] "") "soon" "s"%char).
  - apply ApiHelper__init___eq.
  - apply example_request_prepared.
  - reflexivity.
  - reflexivity.
  - cbn. lia.
  - apply forcelist_503.
  - reflexivity.
  - cbn. set_solver.
  - reflexivity.
  - reflexivity.
Defined.


(** ** The constructor of [TimeoutHTTPAdapter] *)

Section AdapterConstructor.
Context `{Environment}.


End AdapterConstructor.


(** ** The context manager *)

Section With.
Context `{Environment} {A : Type} `{AuthBase A}.

(** X17. In [with ApiHelper(...) as h: body] the body is given the
    helper itself, and when the body is left, by returning or by raising,
    the session is closed: both mounted adapters are closed, once each,
    [https://] first, and nothing is printed or sent for it.  [__exit__]
    returns [None], so an exception of the body is not swallowed: it
    reaches the code around the [with] statement. *)
Theorem with_block_closes_the_session_on_every_exit {X}
    (baseurl : option string) (auth : option A) (self : ApiHelper A)
    (body : ApiHelper A -> SM X) (s : Scope) :
  ApiHelper__init__ baseurl auth = Return self ->
  with_statement self body s
  = match body self s with
    | (Return x, s') => (Return (Some x), released s')
    | (Raise e, s') => (Raise e, released s')
    end.
Proof.
  rewrite ApiHelper__init___eq. intros [= <-].
  unfold with_statement, __enter__, __exit__, Session_close.
  destruct (body _ s) as [[x|e] s']; cbn; unfold released;
    rewrite <- app_assoc; reflexivity.
Qed.

End With.

Lemma with_block_closes_the_session_on_every_exit_witness :
  with_statement (example_helper (H := ok_server))
    (fun h => in_world (get (h, "/v1/users", no_kwargs (H := ok_server))))
    (mk_Scope fresh_world [])
  = (Return (Some (Value ok_response)),
     mk_Scope (mk_World [] [] [on_the_wire example_request (VInt 5)])
       [("https://", TimeoutAdapter helper_adapter);
        ("http://", TimeoutAdapter helper_adapter)])
  /\ with_statement (example_helper (H := ok_server))
       (fun h =>
          in_world (get (h, "//[::1", no_kwargs (H := ok_server))))
       (mk_Scope fresh_world [])
     = (Raise (mk_exn ValueError "Invalid IPv6 URL"),
        mk_Scope fresh_world
          [("https://", TimeoutAdapter helper_adapter);
           ("http://", TimeoutAdapter helper_adapter)]).
Proof.
  split.
  - rewrite (with_block_closes_the_session_on_every_exit (H := ok_server)
               (Some example_base_url) (Some example_auth)
               _ _ _ (ApiHelper__init___eq _ _)).
    vm_compute. reflexivity.
  - rewrite (with_block_closes_the_session_on_every_exit (H := ok_server)
               (Some example_base_url) (Some example_auth)
               _ _ _ (ApiHelper__init___eq _ _)).
    vm_compute. reflexivity.
Defined.

(** ** Authentication and headers *)

Section Anonymous.
Context `{Environment}.

(** X18. A helper constructed without an authenticator adds no
    [Authorization] header of its own: unless [.netrc] or the URL supply
    credentials, the header of every request a call puts on the wire is
    the one the caller passed in [headers] (or the session default), or
    none. *)
Theorem helper_without_auth_adds_no_authorization baseurl self v u kw w res
    w' :
  ApiHelper__init__ baseurl None = Return self ->
  call v (self, u, kw) w = (res, w') ->
  exists new,
    sent w' = sent w ++ new
    /\ Forall (fun s =>
                 ambient_basic_auth (sent_url s) = None ->
                 CaseInsensitiveDict.get "Authorization" (sent_headers s)
                 = CaseInsensitiveDict.get "Authorization"
                     (merge_headers (kw_headers kw) default_headers)) new.
Proof.
  rewrite ApiHelper__init___eq. intros [= <-] Hcall.
  destruct (helper_call_sent _ _ _ _ _ _ _ _ Hcall) as (new & Hsent & Hall).
  exists new. split; [exact Hsent|].
  eapply Forall_impl; [exact Hall|].
  intros s (prep & Hprep & ->). cbn [on_the_wire sent_url sent_headers].
  revert Hprep. unfold outgoing_request.
  destruct (match class_ _ with
            | SessionClass => _ | BaseUrlSessionClass => _ end) as [target|];
    [|discriminate].
  unfold prepare_request.
  destruct (prepare_url target _) as [url'|]; [|discriminate].
  destruct (negb _); [discriminate|].
  destruct (encode_body _ _) as [[b ct]|]; [|discriminate].
  cbn [session_auth helper_session session_headers session_hooks].
  intros [= <-].
  match goal with
  | |- context [prepare_auth None ?q] => set (p := q)
  end.
  cbn [register_hooks url req_headers].
  destruct (prepare_auth_bearer None p) as (_ & -> & _).
  unfold prepare_auth. subst p. cbn [url].
  intros ->. cbn [req_headers].
  assert (Hct : forall (hs : CaseInsensitiveDict.t),
             CaseInsensitiveDict.get "Authorization"
               match ct with
               | Some ct0 =>
                   if str_truthy ct0
                      && negb (CaseInsensitiveDict.__contains__
                                 "content-type" hs)
                   then CaseInsensitiveDict.__setitem__ "Content-Type" ct0 hs
                   else hs
               | None => hs
               end
             = CaseInsensitiveDict.get "Authorization" hs).
  { intros hs. destruct ct as [ct0|]; [|reflexivity].
    destruct (_ && _); [|reflexivity].
    unfold CaseInsensitiveDict.get, CaseInsensitiveDict.__getitem__,
      CaseInsensitiveDict.__setitem__.
    now rewrite lookup_insert_ne. }
  rewrite Hct. now apply prepare_content_length_other.
Qed.

End Anonymous.

Lemma helper_without_auth_adds_no_authorization_witness :
  exists new,
    [on_the_wire anonymous_request (VInt 5)] = [] ++ new
    /\ Forall (fun s =>
                 ambient_basic_auth (Environment := ok_server) (sent_url s)
                 = None ->
                 CaseInsensitiveDict.get "Authorization" (sent_headers s)
                 = CaseInsensitiveDict.get "Authorization"
                     (merge_headers None
                        (default_headers (Environment := ok_server)))) new.
Proof.
  apply (helper_without_auth_adds_no_authorization (H := ok_server)
           (Some example_base_url) (anonymous_helper (H := ok_server))
           GET "/v1/users" (no_kwargs (H := ok_server)) fresh_world
           (Return (Value ok_response))
           (mk_World [] [] [on_the_wire anonymous_request (VInt 5)])
           (ApiHelper__init___eq _ _)).
  vm_compute. reflexivity.
Defined.

(** X19. Applying a Bearer authenticator to a request that another one
    has already been applied to leaves the request as if only the second
    had been applied: the last token wins, and applying the same
    authenticator twice is the same as applying it once. *)
Theorem BearerAuth_last_token_wins (first second : BearerAuth.t) (r : loc)
    (h : heap) :
  BearerAuth.__call__ second r (BearerAuth.__call__ first r h).2
  = BearerAuth.__call__ second r h.
Proof.
  unfold BearerAuth.__call__. cbn [snd]. f_equal.
  apply map_eq. intros l.
  destruct (decide (r = l)) as [->|Hne];
    [|now rewrite !lookup_alter_ne by exact Hne].
  rewrite !lookup_alter_eq.
  destruct (h !! l) as [req|]; [|reflexivity]. cbn. f_equal.
  unfold set_req_headers. cbn. f_equal.
  unfold CaseInsensitiveDict.__setitem__. apply insert_insert_eq.
Qed.

Lemma ascii_lower_upper (c : ascii) :
  ascii_lower (ascii_upper c) = ascii_lower c.
Proof. destruct c as [[] [] [] [] [] [] [] []]; reflexivity. Qed.

Lemma ascii_lower_lower (c : ascii) :
  ascii_lower (ascii_lower c) = ascii_lower c.
Proof. destruct c as [[] [] [] [] [] [] [] []]; reflexivity. Qed.

Lemma lower_upper (s : string) : lower (upper s) = lower s.
Proof.
  induction s as [|c s IH]; [reflexivity|].
  cbn [lower upper]. now rewrite ascii_lower_upper, IH.
Qed.

Lemma lower_lower (s : string) : lower (lower s) = lower s.
Proof.
  induction s as [|c s IH]; [reflexivity|].
  cbn [lower]. now rewrite ascii_lower_lower, IH.
Qed.

(** X20. The header dictionary that [BearerAuth] writes to ignores the
    case of (ASCII) names: a header set under one spelling is read back
    under the upper-case and the lower-case spelling, setting it again
    under another spelling replaces it, deleting it under another
    spelling removes it, and headers of other names are not touched. *)
Theorem header_names_are_case_insensitive (key value : string)
    (d : CaseInsensitiveDict.t) :
  ascii_text key = true ->
  CaseInsensitiveDict.get (upper key)
    (CaseInsensitiveDict.__setitem__ key value d) = Some value
  /\ CaseInsensitiveDict.get (lower key)
       (CaseInsensitiveDict.__setitem__ key value d) = Some value
  /\ (forall other,
        ascii_text other = true ->
        lower other <> lower key ->
        CaseInsensitiveDict.get other
          (CaseInsensitiveDict.__setitem__ key value d)
        = CaseInsensitiveDict.get other d)
  /\ (forall key' value',
        ascii_text key' = true ->
        lower key' = lower key ->
        CaseInsensitiveDict.__setitem__ key' value'
          (CaseInsensitiveDict.__setitem__ key value d)
        = CaseInsensitiveDict.__setitem__ key' value' d)
  /\ (forall key',
        ascii_text key' = true ->
        lower key' = lower key ->
        CaseInsensitiveDict.get key
          (CaseInsensitiveDict.__delitem__ key'
             (CaseInsensitiveDict.__setitem__ key value d)) = None
        /\ CaseInsensitiveDict.__contains__ key
             (CaseInsensitiveDict.__delitem__ key'
                (CaseInsensitiveDict.__setitem__ key value d)) = false).
Proof.
  intros _.
  unfold CaseInsensitiveDict.get, CaseInsensitiveDict.__getitem__,
    CaseInsensitiveDict.__setitem__, CaseInsensitiveDict.__delitem__,
    CaseInsensitiveDict.__contains__.
  split; [|split; [|split; [|split]]].
  - now rewrite lower_upper, lookup_insert_eq.
  - now rewrite lower_lower, lookup_insert_eq.
  - intros other _ Hne. now rewrite lookup_insert_ne by congruence.
  - intros key' value' _ ->. apply insert_insert_eq.
  - intros key' _ ->. rewrite lookup_delete_eq. split; [reflexivity|].
    apply bool_decide_eq_false_2. now intros [x Hx].
Qed.

Lemma header_names_are_case_insensitive_witness :
  CaseInsensitiveDict.get "AUTHORIZATION"
    (CaseInsensitiveDict.__setitem__ "Authorization" "Bearer abc123" ∅)
  = Some "Bearer abc123"
  /\ CaseInsensitiveDict.get "authorization"
       (CaseInsensitiveDict.__setitem__ "Authorization" "Bearer abc123" ∅)
     = Some "Bearer abc123".
Proof.
  destruct (header_names_are_case_insensitive "Authorization"
              "Bearer abc123" ∅ eq_refl) as (Hupper & Hlower & _).
  split; [exact Hupper|exact Hlower].
Defined.

Lemma fold_insert_other (items : list (string * option string))
    (m : gmap string (string * option string)) (j : string) :
  Forall (fun kv => lower kv.1 <> j) items ->
  fold_left (fun acc kv => <[lower kv.1 := (kv.1, kv.2)]> acc) items m !! j
  = m !! j.
Proof.
  intros Hall. revert m.
  induction Hall as [|kv items Hkv _ IH]; intros m; [reflexivity|].
  cbn [fold_left]. rewrite IH. now apply lookup_insert_ne.
Qed.

(** X21. Headers passed to a call are merged over those of the session,
    (ASCII) names compared without regard to case: for each name the last
    entry of the call decides, an entry with the value [None] removes the
    header for this call, and a header the call does not name keeps the
    value of the session. *)
Theorem per_call_headers_override_session_headers
    (items : list (string * option string))
    (session_headers : CaseInsensitiveDict.t) (key : string) :
  ascii_text key = true ->
  forallb (fun kv => ascii_text kv.1) items = true ->
  (forall before name value after,
      items = before ++ (name, value) :: after ->
      lower name = lower key ->
      Forall (fun kv => lower kv.1 <> lower key) after ->
      CaseInsensitiveDict.get key (merge_headers (Some items) session_headers)
      = value)
  /\ (Forall (fun kv => lower kv.1 <> lower key) items ->
      CaseInsensitiveDict.get key (merge_headers (Some items) session_headers)
      = CaseInsensitiveDict.get key session_headers).
Proof.
  intros _ _.
  unfold CaseInsensitiveDict.get, CaseInsensitiveDict.__getitem__,
    merge_headers.
  split.
  - intros before name value after -> Hname Hafter.
    rewrite lookup_omap, fold_left_app. cbn [fold_left].
    rewrite (fold_insert_other after _ _ Hafter).
    cbn [fst snd]. rewrite Hname, lookup_insert_eq. cbn.
    now destruct value.
  - intros Hall. rewrite lookup_omap, (fold_insert_other items _ _ Hall).
    rewrite lookup_fmap. now destruct (session_headers !! lower key) as [[]|].
Qed.

Lemma per_call_headers_override_session_headers_witness :
  CaseInsensitiveDict.get "Accept"
    (merge_headers
       (Some [("X-Trace", Some "1"); ("accept", None)])
       ({[ "accept" := ("Accept", "*/*") ]} : CaseInsensitiveDict.t))
  = None.
Proof.
  destruct (per_call_headers_override_session_headers
              [("X-Trace", Some "1"); ("accept", None)]
              ({[ "accept" := ("Accept", "*/*") ]} : CaseInsensitiveDict.t)
              "Accept" eq_refl eq_refl) as [Hlast _].
  apply (Hlast [("X-Trace", Some "1")] "accept" None []).
  - reflexivity.
  - reflexivity.
  - constructor.
Defined.

(** ** The adapters of a session *)

Lemma find_app_skip {X} (f : X -> bool) (l1 l2 : list X) :
  Forall (fun x => f x = false) l1 ->
  List.find f (l1 ++ l2) = List.find f l2.
Proof.
  intros Hall. induction Hall as [|x l1 Hx _ IH]; [reflexivity|].
  cbn. now rewrite Hx.
Qed.

Lemma dict_set_split {V} (k : string) (v : V) (d : list (string * V)) :
  exists l1 l2,
    dict_set k v d = l1 ++ (k, v) :: l2
    /\ Forall (fun kv => kv.1 <> k /\ kv ∈ d) l1.
Proof.
  induction d as [|[k' v'] d IH]; cbn [dict_set].
  - exists [], []. split; [reflexivity|constructor].
  - destruct (decide (k' = k)) as [->|Hne].
    + rewrite bool_decide_eq_true_2 by reflexivity.
      exists [], d. split; [reflexivity|constructor].
    + rewrite bool_decide_eq_false_2 by exact Hne.
      destruct IH as (l1 & l2 & -> & Hl1).
      exists ((k', v') :: l1), l2. split; [reflexivity|].
      constructor; [split; [exact Hne|apply list_elem_of_here]|].
      eapply Forall_impl; [exact Hl1|].
      intros kv [? ?]. split; [assumption|]. now apply list_elem_of_further.
Qed.

Lemma dict_set_cases {V} (k : string) (v : V) (d : list (string * V)) :
  (exists l1 v0 l2,
      d = l1 ++ (k, v0) :: l2 /\ dict_set k v d = l1 ++ (k, v) :: l2)
  \/ dict_set k v d = d ++ [(k, v)].
Proof.
  induction d as [|[k' v'] d IH]; cbn [dict_set]; [now right|].
  destruct (decide (k' = k)) as [->|Hne].
  - rewrite bool_decide_eq_true_2 by reflexivity.
    left. now exists [], v', d.
  - rewrite bool_decide_eq_false_2 by exact Hne.
    destruct IH as [(l1 & v0 & l2 & -> & ->) | ->]; [left|now right].
    now exists ((k', v') :: l1), v0, l2.
Qed.

Lemma longest_first_filter {V} (f : string * V -> bool)
    (d : list (string * V)) :
  longest_first d -> longest_first (List.filter f d).
Proof.
  unfold longest_first. induction 1 as [|x l Hl IH Hx]; cbn; [constructor|].
  destruct (f x); [|exact IH].
  constructor; [exact IH|].
  apply Forall_forall. intros y Hy.
  apply list_elem_of_In, filter_In in Hy as [Hy _].
  rewrite Forall_forall in Hx. now apply Hx, list_elem_of_In.
Qed.

Lemma longest_first_dict_set {V} (k : string) (v v0 : V)
    (l1 l2 : list (string * V)) :
  longest_first (l1 ++ (k, v0) :: l2) -> longest_first (l1 ++ (k, v) :: l2).
Proof.
  unfold longest_first.
  rewrite !StronglySorted_app, !StronglySorted_cons.
  intros (Hcross & Hl1 & Hk & Hl2). repeat split; try assumption.
  intros x1 x2 Hx1 Hx2. apply elem_of_cons in Hx2 as [->|Hx2].
  - apply (Hcross x1 (k, v0) Hx1). apply list_elem_of_here.
  - apply (Hcross x1 x2 Hx1). now apply list_elem_of_further.
Qed.

Section Mount.
Context {A : Type}.

(** X22. An adapter mounted on a prefix serves every URL that starts
    with the prefix (ASCII text, case ignored), as long as every other
    mounted prefix the URL starts with is shorter: it is found before
    them, wherever in the order of mounting it comes. *)
Theorem mounted_prefix_takes_precedence (prefix : string) (a : adapter)
    (self : Session A) (u : string) :
  ascii_text u = true -> ascii_text prefix = true ->
  forallb (fun kv => ascii_text kv.1) (adapters self) = true ->
  startswith (lower u) (lower prefix) = true ->
  (forall k a', (k, a') ∈ adapters self -> k <> prefix ->
                startswith (lower u) (lower k) = true ->
                (String.length k < String.length prefix)%nat) ->
  get_adapter (mount prefix a self) u = Return a.
Proof.
  intros _ _ _ Hu Hother. unfold get_adapter, mount. cbn [adapters].
  destruct (dict_set_split prefix a (adapters self)) as (l1 & l2 & -> & Hl1).
  rewrite !List.filter_app. cbn [List.filter fst negb].
  rewrite Nat.ltb_irrefl. cbn [negb].
  rewrite <- !app_assoc, find_app_skip.
  - cbn [app List.find fst]. now rewrite Hu.
  - apply Forall_forall. intros [k a'] Hin.
    apply list_elem_of_In, filter_In in Hin as [Hin Hlen].
    apply list_elem_of_In in Hin.
    rewrite Forall_forall in Hl1. destruct (Hl1 _ Hin) as [Hne Hd].
    cbn [fst] in *.
    destruct (startswith (lower u) (lower k)) eqn:Hm; [|reflexivity].
    specialize (Hother k a' Hd Hne Hm).
    apply negb_true_iff, Nat.ltb_ge in Hlen. lia.
Qed.

(** X23. [mount] keeps the adapters of a session ordered by the length
    of their prefixes, longest first; and in that order the adapter found
    for a URL (ASCII text, case ignored) is one of a longest prefix the
    URL starts with. *)
Theorem adapters_stay_longest_first (prefix : string) (a : adapter)
    (self : Session A) :
  longest_first (adapters self) ->
  longest_first (adapters (mount prefix a self))
  /\ (forall u a0,
        ascii_text u = true ->
        forallb (fun kv => ascii_text kv.1) (adapters self) = true ->
        get_adapter self u = Return a0 ->
        exists k,
          (k, a0) ∈ adapters self
          /\ startswith (lower u) (lower k) = true
          /\ forall k' a', (k', a') ∈ adapters self ->
                           startswith (lower u) (lower k') = true ->
                           (String.length k' <= String.length k)%nat).
Proof.
  intros Hsorted. split.
  - unfold mount. cbn [adapters].
    set (shorter := fun kv : string * adapter =>
                      (String.length kv.1 <? String.length prefix)%nat).
    assert (Hparts : forall D,
               longest_first (List.filter (fun kv => negb (shorter kv)) D) ->
               longest_first (List.filter shorter D) ->
               longest_first
                 (List.filter (fun kv => negb (shorter kv)) D
                  ++ List.filter shorter D)).
    { intros D H1 H2. apply StronglySorted_app_2; [|exact H1|exact H2].
      intros x1 x2 Hx1 Hx2.
      apply list_elem_of_In, filter_In in Hx1 as [_ Hx1].
      apply list_elem_of_In, filter_In in Hx2 as [_ Hx2].
      unfold shorter in Hx1, Hx2.
      apply negb_true_iff, Nat.ltb_ge in Hx1. apply Nat.ltb_lt in Hx2. lia. }
    destruct (dict_set_cases prefix a (adapters self))
      as [(l1 & v0 & l2 & Hd & ->) | ->].
    + rewrite Hd in Hsorted.
      apply (longest_first_dict_set prefix a) in Hsorted.
      apply Hparts; now apply longest_first_filter.
    + apply Hparts.
      * rewrite List.filter_app. cbn [List.filter]. unfold shorter at 2.
        cbn [fst]. rewrite Nat.ltb_irrefl. cbn [negb].
        apply StronglySorted_app_2.
        -- intros x1 x2 Hx1 Hx2.
           apply list_elem_of_In, filter_In in Hx1 as [_ Hx1].
           apply list_elem_of_singleton in Hx2 as ->.
           unfold shorter in Hx1.
           apply negb_true_iff, Nat.ltb_ge in Hx1. exact Hx1.
        -- now apply longest_first_filter.
        -- repeat constructor.
      * rewrite List.filter_app. cbn [List.filter]. unfold shorter at 2.
        cbn [fst]. rewrite Nat.ltb_irrefl, app_nil_r.
        now apply longest_first_filter.
  - intros u a0 _ _. unfold get_adapter.
    induction Hsorted as [|[k1 a1] l Hl IH Hx]; [discriminate|].
    cbn [List.find fst].
    destruct (startswith (lower u) (lower k1)) eqn:Hm.
    + intros [= <-]. exists k1. split; [apply list_elem_of_here|].
      split; [exact Hm|]. intros k' a' Hin _.
      apply elem_of_cons in Hin as [[= -> _]|Hin]; [lia|].
      rewrite Forall_forall in Hx. apply (Hx (k', a') Hin).
    + intros Hfind. destruct (IH Hfind) as (k & Hin & Hk & Hmax).
      exists k. split; [now apply list_elem_of_further|].
      split; [exact Hk|]. intros k' a' Hin' Hm'.
      apply elem_of_cons in Hin' as [[= -> _]|Hin']; [congruence|].
      now apply (Hmax k' a').
Qed.

End Mount.

Lemma mounted_prefix_takes_precedence_witness :
  get_adapter
    (mount "https://api.example.com/" default_adapter
       (helper_session (H := ok_server) None (Some example_auth)))
    "https://api.example.com/v1/users"
  = Return default_adapter.
Proof.
  apply mounted_prefix_takes_precedence.
  - reflexivity.
  - reflexivity.
  - reflexivity.
  - reflexivity.
  - intros k a' Hin Hne Hm. cbn [adapters helper_session] in Hin.
    rewrite !elem_of_cons, elem_of_nil in Hin.
    destruct Hin as [[= -> _]|[[= -> _]|[]]]; cbn; lia.
Defined.

Lemma adapters_stay_longest_first_witness :
  longest_first
    (adapters (mount "https://api.example.com/" default_adapter
                 (helper_session (H := ok_server) None (Some example_auth))))
  /\ (forall u a0,
        ascii_text u = true ->
        forallb (fun kv => ascii_text kv.1)
          (adapters (helper_session (H := ok_server) None
                       (Some example_auth))) = true ->
        get_adapter
          (helper_session (H := ok_server) None (Some example_auth)) u
        = Return a0 ->
        exists k,
          (k, a0) ∈ adapters
                      (helper_session (H := ok_server) None
                         (Some example_auth))
          /\ startswith (lower u) (lower k) = true
          /\ forall k' a',
               (k', a') ∈ adapters
                            (helper_session (H := ok_server) None
                               (Some example_auth)) ->
               startswith (lower u) (lower k') = true ->
               (String.length k' <= String.length k)%nat).
Proof.
  apply adapters_stay_longest_first.
  unfold longest_first. cbn [adapters helper_session].
  repeat constructor.
Defined.

(** ** Joining a URL to the base URL ([urljoin]) *)

Section Join.
Variable ok1 ok2 : string -> bool.

Lemma startswith_truthy (s p : string) :
  str_truthy p = true -> startswith s p = true -> str_truthy s = true.
Proof. destruct s, p; cbn; congruence. Qed.

Lemma urlparse_empty (s : string) (p : urllib_parse.ParseResult) :
  urllib_parse.urlparse ok1 ok2 "" s = Return p -> urllib_parse.path p = "".
Proof.
  unfold urllib_parse.urlparse, urllib_parse.urlsplit. cbn.
  destruct (bool_decide _ && _); cbn; intros [= <-]; reflexivity.
Qed.

(** X24. A call URL whose path starts with a slash replaces the whole
    path of the base URL: joined to two base URLs of the same scheme and
    host, it gives the same URL, whatever paths the base URLs have. *)
Theorem urljoin_absolute_path_replaces_base_path (base1 base2 url : string)
    (b1 b2 p : urllib_parse.ParseResult) :
  str_truthy base1 = true -> str_truthy base2 = true ->
  urllib_parse.urlparse ok1 ok2 base1 "" = Return b1 ->
  urllib_parse.urlparse ok1 ok2 base2 "" = Return b2 ->
  urllib_parse.scheme b1 = urllib_parse.scheme b2 ->
  urllib_parse.netloc b1 = urllib_parse.netloc b2 ->
  urllib_parse.urlparse ok1 ok2 url (urllib_parse.scheme b1) = Return p ->
  startswith (urllib_parse.path p) "/" = true ->
  urllib_parse.urljoin ok1 ok2 base1 url
  = urllib_parse.urljoin ok1 ok2 base2 url.
Proof.
  intros Hb1 Hb2 Hp1 Hp2 Hs Hn Hp Hpath.
  assert (Hu : str_truthy url = true).
  { destruct url; [|reflexivity]. apply urlparse_empty in Hp.
    rewrite Hp in Hpath. discriminate. }
  assert (Ht : str_truthy (urllib_parse.path p) = true)
    by now apply (startswith_truthy _ "/").
  unfold urllib_parse.urljoin.
  rewrite Hb1, Hb2, Hu, Hp1, Hp2, <- Hs, Hp, <- Hn, Hpath, Ht.
  cbn [negb andb]. reflexivity.
Qed.

(** X25. The base URL does not confine a call to its host: a call URL
    with a scheme other than that of the base URL is used as it is, and a
    call URL with a host of its own is used on its own (scheme, host,
    path, parameters, query and fragment put together again), nothing of
    the base URL but the scheme entering it. *)
Theorem urljoin_keeps_a_url_with_its_own_host (base url : string)
    (b p : urllib_parse.ParseResult) :
  str_truthy base = true -> str_truthy url = true ->
  urllib_parse.urlparse ok1 ok2 base "" = Return b ->
  urllib_parse.urlparse ok1 ok2 url (urllib_parse.scheme b) = Return p ->
  (urllib_parse.scheme p <> urllib_parse.scheme b ->
   urllib_parse.urljoin ok1 ok2 base url = Return url)
  /\ (urllib_parse.scheme p = urllib_parse.scheme b ->
      urllib_parse.scheme p ∈ urllib_parse.uses_relative ->
      str_truthy (urllib_parse.netloc p) = true ->
      urllib_parse.urljoin ok1 ok2 base url
      = Return (urllib_parse.urlunparse p)).
Proof.
  intros Hb Hu Hpb Hp. unfold urllib_parse.urljoin.
  rewrite Hb, Hu, Hpb, Hp. cbn [negb]. split.
  - intros Hne. now rewrite (bool_decide_eq_false_2 _ Hne).
  - intros He Hrel Hnet.
    rewrite (bool_decide_eq_true_2 _ He), (bool_decide_eq_true_2 _ Hrel).
    cbn [negb orb].
    assert (Hin : urllib_parse.scheme p ∈ urllib_parse.uses_netloc).
    { revert Hrel. unfold urllib_parse.uses_relative, urllib_parse.uses_netloc.
      rewrite !elem_of_cons, !elem_of_nil. tauto. }
    now rewrite (bool_decide_eq_true_2 _ Hin), Hnet.
Qed.

End Join.

Lemma urljoin_absolute_path_replaces_base_path_witness :
  urllib_parse.urljoin (fun _ => true) (fun _ => true)
    "https://api.example.com/v1/" "/users"
  = urllib_parse.urljoin (fun _ => true) (fun _ => true)
      "https://api.example.com" "/users"
  /\ urllib_parse.urljoin (fun _ => true) (fun _ => true)
       "https://api.example.com/v1/" "/users"
     = Return "https://api.example.com/users".
Proof.
  split; [|vm_compute; reflexivity].
  apply (urljoin_absolute_path_replaces_base_path _ _
           "https://api.example.com/v1/" "https://api.example.com" "/users"
           (urllib_parse.mk_ParseResult "https" "api.example.com" "/v1/"
              "" "" "")
           (urllib_parse.mk_ParseResult "https" "api.example.com" ""
              "" "" "")
           (urllib_parse.mk_ParseResult "https" "" "/users" "" "" ""));
    vm_compute; reflexivity.
Defined.

Lemma urljoin_keeps_a_url_with_its_own_host_witness :
  urllib_parse.urljoin (fun _ => true) (fun _ => true)
    "https://api.example.com/v1/" "http://elsewhere.example/x"
  = Return "http://elsewhere.example/x"
  /\ urllib_parse.urljoin (fun _ => true) (fun _ => true)
       "https://api.example.com/v1/" "//elsewhere.example/x"
     = Return "https://elsewhere.example/x".
Proof.
  split.
  - refine (proj1 (urljoin_keeps_a_url_with_its_own_host _ _
                     "https://api.example.com/v1/"
                     "http://elsewhere.example/x"
                     (urllib_parse.mk_ParseResult "https" "api.example.com"
                        "/v1/" "" "" "")
                     (urllib_parse.mk_ParseResult "http" "elsewhere.example"
                        "/x" "" "" "") _ _ _ _) _);
      try (vm_compute; reflexivity).
    cbn. discriminate.
  - refine (proj2 (urljoin_keeps_a_url_with_its_own_host _ _
                     "https://api.example.com/v1/" "//elsewhere.example/x"
                     (urllib_parse.mk_ParseResult "https" "api.example.com"
                        "/v1/" "" "" "")
                     (urllib_parse.mk_ParseResult "https" "elsewhere.example"
                        "/x" "" "" "") _ _ _ _) _ _ _);
      try (vm_compute; reflexivity).
    cbn. unfold urllib_parse.uses_relative. rewrite !elem_of_cons. tauto.
Defined.

(** ** The counters and the history of a retry strategy *)

Lemma foldr_min_negative (n : Z) (ns : list Z) :
  (foldr Z.min n ns < 0)%Z <-> exists m, m ∈ n :: ns /\ (m < 0)%Z.
Proof.
  induction ns as [|a ns IH]; cbn [foldr].
  - split.
    + intros Hn. exists n. split; [apply list_elem_of_here|exact Hn].
    + intros (m & Hm & Hlt). apply list_elem_of_singleton in Hm. now subst.
  - rewrite Z.min_lt_iff. split.
    + intros [Ha|Hr].
      * exists a. split; [|exact Ha]. rewrite !elem_of_cons. auto.
      * apply IH in Hr as (m & Hm & Hlt). exists m. split; [|exact Hlt].
        rewrite !elem_of_cons in *. tauto.
    + intros (m & Hm & Hlt).
      rewrite !elem_of_cons in Hm. destruct Hm as [Hm|[Hm|Hm]].
      * right. apply IH. exists m. split; [|exact Hlt].
        rewrite elem_of_cons. now left.
      * left. now rewrite <- Hm.
      * right. apply IH. exists m. split; [|exact Hlt].
        rewrite elem_of_cons. now right.
Qed.

(** X26. A retry strategy is exhausted exactly when one of its six
    counters (total, connect, read, redirect, status, other) is a
    negative integer; counters that are [None], [False] or 0 do not
    count. *)
Theorem is_exhausted_iff_negative_counter (r : Retry.t) :
  Retry.is_exhausted r = true
  <-> exists n, (n < 0)%Z
        /\ CInt n ∈ [CInt (Retry.total r); Retry.connect r; Retry.read r;
                     Retry.redirect r; Retry.status_count r; Retry.other r].
Proof.
  unfold Retry.is_exhausted.
  set (f := fun c => match c with
                     | CInt n => if (n =? 0)%Z then None else Some n
                     | _ => None
                     end).
  set (cs := [CInt (Retry.total r); Retry.connect r; Retry.read r;
              Retry.redirect r; Retry.status_count r; Retry.other r]).
  assert (Hin : forall m, (m < 0)%Z -> (m ∈ omap f cs <-> CInt m ∈ cs)).
  { intros m Hm. rewrite list_elem_of_omap. split.
    - intros (c & Hc & Hf). destruct c as [| |k]; try discriminate.
      cbn in Hf. destruct (k =? 0)%Z; [discriminate|]. now injection Hf as ->.
    - intros Hc. exists (CInt m). split; [exact Hc|]. cbn.
      now rewrite (proj2 (Z.eqb_neq m 0)) by lia. }
  destruct (omap f cs) as [|n ns] eqn:Hrc.
  - split; [discriminate|]. intros (m & Hm & Hc).
    apply Hin in Hc; [|exact Hm]. now apply elem_of_nil in Hc.
  - rewrite Z.ltb_lt, foldr_min_negative. split.
    + intros (m & Hm & Hlt). exists m. split; [exact Hlt|]. now apply Hin.
    + intros (m & Hlt & Hc). exists m. split; [|exact Hlt]. now apply Hin.
Qed.

(** X27. [increment] never changes the policy: the strategy it returns
    has the same retryable methods and statuses, backoff factor and flags;
    its total is one less and still not negative, it is not exhausted,
    and its history is the old one with one entry more, for the method,
    URL and error of the failed attempt. *)
Theorem increment_keeps_the_policy (r r' : Retry.t) (m u : string)
    (response : option HTTPResponse) (error : option wire_error) :
  Retry.increment r m u response error = Retry.Incremented r' ->
  Retry.allowed_methods r' = Retry.allowed_methods r
  /\ Retry.status_forcelist r' = Retry.status_forcelist r
  /\ Retry.backoff_factor r' = Retry.backoff_factor r
  /\ Retry.raise_on_redirect r' = Retry.raise_on_redirect r
  /\ Retry.raise_on_status r' = Retry.raise_on_status r
  /\ Retry.respect_retry_after_header r'
     = Retry.respect_retry_after_header r
  /\ Retry.total r' = (Retry.total r - 1)%Z
  /\ (0 <= Retry.total r')%Z
  /\ Retry.is_exhausted r' = false
  /\ exists entry,
       Retry.history r' = Retry.history r ++ [entry]
       /\ rh_method entry = m /\ rh_url entry = u
       /\ rh_error entry = error.
Proof.
  intros Hinc.
  assert (Hex : Retry.is_exhausted r' = false).
  { revert Hinc. unfold Retry.increment.
    repeat match goal with
           | |- context [match ?x with _ => _ end] => destruct x eqn:?
           end; intros [= <-]; assumption. }
  pose proof (not_exhausted_total r' Hex) as Htot.
  revert Hinc. unfold Retry.increment.
  repeat match goal with
         | |- context [match ?x with _ => _ end] => destruct x
         end; intros [= <-]; cbn in *; repeat split; trivial;
    eexists; repeat split.
Qed.

Lemma increment_keeps_the_policy_witness :
  Retry.allowed_methods (strategy_after [busy_attempt])
  = Retry.allowed_methods default_retry_strategy
  /\ Retry.status_forcelist (strategy_after [busy_attempt])
     = Retry.status_forcelist default_retry_strategy
  /\ Retry.backoff_factor (strategy_after [busy_attempt])
     = Retry.backoff_factor default_retry_strategy
  /\ Retry.raise_on_redirect (strategy_after [busy_attempt])
     = Retry.raise_on_redirect default_retry_strategy
  /\ Retry.raise_on_status (strategy_after [busy_attempt])
     = Retry.raise_on_status default_retry_strategy
  /\ Retry.respect_retry_after_header (strategy_after [busy_attempt])
     = Retry.respect_retry_after_header default_retry_strategy
  /\ Retry.total (strategy_after [busy_attempt])
     = (Retry.total default_retry_strategy - 1)%Z
  /\ (0 <= Retry.total (strategy_after [busy_attempt]))%Z
  /\ Retry.is_exhausted (strategy_after [busy_attempt]) = false
  /\ exists entry,
       Retry.history (strategy_after [busy_attempt])
       = Retry.history default_retry_strategy ++ [entry]
       /\ rh_method entry = "GET"
       /\ rh_url entry = "https://api.example.com/v1/users"
       /\ rh_error entry = None.
Proof.
  apply (increment_keeps_the_policy default_retry_strategy
           (strategy_after [busy_attempt]) "GET"
           "https://api.example.com/v1/users"
           (Some (response_with 503 [] "busy")) None).
  vm_compute. reflexivity.
Defined.

Lemma takewhile_stops {X} (p : X -> bool) (l1 : list X) (x : X)
    (l2 : list X) :
  Forall (fun y => p y = true) l1 -> p x = false ->
  Retry.takewhile p (l1 ++ x :: l2) = l1.
Proof.
  intros Hall Hx. induction Hall as [|y l1 Hy _ IH]; cbn.
  - now rewrite Hx.
  - now rewrite Hy, IH.
Qed.


